(** * The value renderer of obsidian-dataview ([src/ui/render.ts])

    A shallow embedding of [renderCompactMarkdown], [renderErrorPre],
    [renderCodeBlock] and [renderValue].

    - The output tree is a value of type [Node]; a container is represented by
      the list of its child nodes, and every operation of the source that
      mutates a container is a function from the child list before to the
      child list after.  The nodes that the renderer and the host create are
      [Text] and [Element] nodes.  An element that exists before the call (an
      html literal) has an identity and stands in the tree as [Existing h]:
      the tree shows where the element is, not what it holds.  Attaching it
      takes it from wherever it was, as [appendChild] does.
    - JavaScript objects that hold other literals (widgets, arrays, data
      arrays, plain objects) live in a [Heap] and are referred to by address,
      so that a value may contain itself.
    - An [async] call either returns or rejects; a rejected call leaves the
      container as it was when the failure happened.  A render is a partial
      function ([option]), driven by a fuel counter that bounds the number of
      nested calls of [renderValue]; the exhaustion of the call stack of an
      engine is not part of the embedding.
    - What the file imports from the rest of the plugin, from the language
      and from the host (the markdown renderer, the date and duration
      formatters, the locale, stringification, the exceptions of the DOM and
      the position of the container in the document) is the interface
      [Host]. *)

From Stdlib Require Import String Ascii List ZArith Bool Lia Arith Wellfounded.
Import ListNotations.
Open Scope string_scope.
Open Scope list_scope.
Open Scope Z_scope.

Set Implicit Arguments.
#[local] Set Warnings "-register-all".

(** ** The output tree *)

(** The identity of an element that exists before the call. *)
Definition HtmlElement := nat.

Inductive Node : Type :=
| Text (data : string)
| Element (tagName : string) (classList : list string)
          (attributes : list (string * string)) (childNodes : list Node)
| Existing (h : HtmlElement).

Definition Container := list Node.

(** [container.appendText(text)] *)
Definition appendText (container : Container) (text : string) : Container :=
  container ++ [Text text].

(** [container.appendChild(node)] for a node that has just been created. *)
Definition appendChild (container : Container) (node : Node) : Container :=
  container ++ [node].

(** A tree without the existing element [h], wherever it stood in it. *)
Fixpoint detach (h : HtmlElement) (n : Node) : list Node :=
  match n with
  | Text data => [Text data]
  | Element tag cls attrs kids =>
      [Element tag cls attrs (flat_map (detach h) kids)]
  | Existing h' => if Nat.eqb h h' then [] else [Existing h']
  end.

Definition detachFrom (h : HtmlElement) (c : Container) : Container :=
  flat_map (detach h) c.

(** A container without the existing elements [hs]. *)
Definition detachAll (hs : list HtmlElement) (c : Container) : Container :=
  fold_left (fun c h => detachFrom h c) hs c.

(** [container.appendChild(field)] for an existing element that does not
    contain the container: the element leaves the place it had and becomes
    the last child. *)
Definition attach (container : Container) (h : HtmlElement) : Container :=
  detachFrom h container ++ [Existing h].

(** [elem.textContent = text] on an element: the children are replaced by a
    single text node, or by nothing when the text is empty. *)
Definition setTextContent (text : string) : list Node :=
  if String.eqb text "" then [] else [Text text].

Definition isElement (n : Node) : bool :=
  match n with
  | Element _ _ _ _ => true
  | Existing _ => true
  | Text _ => false
  end.

(** [el.children]: the child nodes that are elements. *)
Definition children (c : Container) : list Node := filter isElement c.

(** A [<p>] element.  The test is applied to what the host has rendered,
    which the host has created: an existing element does not occur there. *)
Definition isParagraph (n : Node) : bool :=
  match n with
  | Element tag _ _ _ => String.eqb tag "p"
  | _ => false
  end.

Definition nodeChildNodes (n : Node) : list Node :=
  match n with Element _ _ _ kids => kids | _ => [] end.

(** [el.querySelector(":scope > p")]: the first child that is a [<p>]
    element, together with the child nodes before and after it. *)
Fixpoint querySelector_scope_p (c : Container)
  : option (list Node * Node * list Node) :=
  match c with
  | [] => None
  | n :: rest =>
      if isParagraph n then Some ([], n, rest)
      else match querySelector_scope_p rest with
           | Some (before, p, after) => Some (n :: before, p, after)
           | None => None
           end
  end.

(** ASCII whitespace, which a class token must not contain: tab, line feed,
    form feed, carriage return and space. *)
Definition isAsciiWhitespace (ch : ascii) : bool :=
  let n := nat_of_ascii ch in
  (n =? 9)%nat || (n =? 10)%nat || (n =? 12)%nat || (n =? 13)%nat
  || (n =? 32)%nat.

Fixpoint hasAsciiWhitespace (s : string) : bool :=
  match s with
  | EmptyString => false
  | String ch rest => isAsciiWhitespace ch || hasAsciiWhitespace rest
  end.

(** ** The host interface *)

Inductive Component : Type :=
| InlineFieldLivePreviewComponent
| OtherComponent.

Definition instanceof_InlineFieldLivePreviewComponent (c : Component) : bool :=
  match c with InlineFieldLivePreviewComponent => true | OtherComponent => false end.

Inductive Outcome (Error : Type) : Type :=
| Returned
| Raised (e : Error).
Arguments Returned {Error}.
Arguments Raised {Error} e.

Record QuerySettings : Type := {
  maxRecursiveRenderDepth : Z;
  renderNullAs : string
}.

Class Host : Type := {
  DateTime : Type;
  Duration : Type;
  Link : Type;
  Number : Type;
  Unclassified : Type;
  (** the values that can be thrown *)
  Error : Type;
  (** [MarkdownRenderer.renderMarkdown(markdown, el, sourcePath, component)]:
      the children of [el] before, the children after and the outcome.  The
      host creates the nodes it adds. *)
  MarkdownRenderer_renderMarkdown :
    string -> Container -> string -> Component -> Container * Outcome Error;
  currentLocale : string;
  renderMinimalDate : DateTime -> QuerySettings -> string -> string;
  renderMinimalDuration : Duration -> string;
  Link_markdown : Link -> string;
  (** [String(n)] for a number *)
  Number_toString : Number -> string;
  (** ["" + JSON.stringify(field)] for a value that no test of [Values]
      recognises: the text (["undefined"] for a symbol), or what
      [JSON.stringify] throws (a [TypeError] for a bigint) *)
  JSON_stringify : Unclassified -> string + Error;
  (** the [DOMException] of the given name *)
  DOMException : string -> Error;
  (** [field.contains(container)]: the existing element is the container of
      the top-level call or one of its ancestors in the document *)
  contains_container : HtmlElement -> bool
}.

Section Model.
Context {H : Host}.

(** What a call leaves: the children of its container and how it ended. *)
Definition Result : Type := option (Container * Outcome Error).

(** What a call leaves, and the existing elements that it has attached
    somewhere below its container, which are now nowhere else. *)
Definition Taking : Type :=
  option (Container * Outcome Error * list HtmlElement).

Definition forgetTaken (r : Taking) : Result :=
  match r with
  | Some (c, o, _) => Some (c, o)
  | None => None
  end.

(** A step that attaches no existing element. *)
Definition taking_nothing (r : Container * Outcome Error) : Taking :=
  Some (r, []).

(** Sequencing of two steps of an [async] function: a rejection of the first
    aborts the rest, running out of fuel is undefined. *)
Definition andThen (r : Taking) (k : Container -> Taking) : Taking :=
  match r with
  | None => None
  | Some (c, Returned, taken) =>
      match k c with
      | None => None
      | Some (c', o, taken') => Some (c', o, taken ++ taken')
      end
  | Some (c, Raised e, taken) => Some (c, Raised e, taken)
  end.

(** [parent.createEl(tag, { cls })] followed by work on the new element:
    the element is the last child of the parent and [body] fills it; the
    existing elements that [body] attaches leave the parent. *)
Definition createEl (tag : string) (cls : list string)
    (body : Container -> Taking) (parent : Container) : Taking :=
  match body [] with
  | None => None
  | Some (kids, o, taken) =>
      Some (detachAll taken parent ++ [Element tag cls [] kids], o, taken)
  end.

(** ** [renderCompactMarkdown] *)

(** [while (paragraph.firstChild) subcontainer.appendChild(paragraph.firstChild)]:
    [pkids] are the children still in the paragraph, [tail] the children of
    the subcontainer after the paragraph. *)
Fixpoint hoistLoop (pkids : list Node) (tail : list Node) : list Node :=
  match pkids with
  | [] => tail
  | first :: rest => hoistLoop rest (tail ++ [first])
  end.

(** Lines 58-64: the collapse of a single paragraph in the subcontainer. *)
Definition collapseParagraph (subcontainer : Container) : Container :=
  match querySelector_scope_p subcontainer with
  | Some (before, paragraph, after) =>
      if (length (children subcontainer) =? 1)%nat
      then before ++ hoistLoop (nodeChildNodes paragraph) after
      else subcontainer
  | None => subcontainer
  end.

Definition renderCompactMarkdown (markdown : string) (container : Container)
    (sourcePath : string) (component : Component) : Container * Outcome Error :=
  if instanceof_InlineFieldLivePreviewComponent component then
    let tmpContainer : Container := [] in
    match MarkdownRenderer_renderMarkdown markdown tmpContainer sourcePath component with
    | (tmp, Raised e) => (container, Raised e)
    | (tmp, Returned) =>
        match querySelector_scope_p tmp with
        | Some (_, paragraph, _) =>
            if (length tmp =? 1)%nat
            then (nodeChildNodes paragraph, Returned)
            else (tmp, Returned)
        | None => (tmp, Returned)
        end
    end
  else
    match MarkdownRenderer_renderMarkdown markdown [] sourcePath component with
    | (sub, Raised e) => (container ++ [Element "span" [] [] sub], Raised e)
    | (sub, Returned) =>
        (container ++ [Element "span" [] [] (collapseParagraph sub)], Returned)
    end.

(** ** [renderErrorPre] and [renderCodeBlock] *)

(** The container after the call; the element returned is its last child. *)
Definition renderErrorPre (container : Container) (error : string) : Container :=
  container ++ [Element "pre" ["dataview"; "dataview-error"] [] [Text error]].

(** The container after the call and how the call ended; the element
    returned is the last child.  [language] is [None] for [undefined]; an
    empty language adds no class; [classList.add] throws an
    [InvalidCharacterError] on a token with whitespace, and the element,
    which [createEl] has appended already, is left without its text. *)
Definition renderCodeBlock (container : Container) (source : string)
    (language : option string) : Container * Outcome Error :=
  match language with
  | Some l =>
      if String.eqb l "" then
        (container ++ [Element "code" ["dataview"] [] [Text source]], Returned)
      else if hasAsciiWhitespace ("language-" ++ l) then
        (container ++ [Element "code" ["dataview"] [] []],
         Raised (DOMException "InvalidCharacterError"))
      else
        (container ++
           [Element "code" ["dataview"; ("language-" ++ l)%string] []
                    [Text source]],
         Returned)
  | None =>
      (container ++ [Element "code" ["dataview"] [] [Text source]], Returned)
  end.

(** ** Literals *)

Definition addr := nat.

Inductive Literal : Type :=
| LNull
| LDate (d : DateTime)
| LDuration (d : Duration)
| LString (s : string)
| LBoolean (b : bool)
| LNumber (n : Number)
| LLink (l : Link)
| LHtml (h : HtmlElement)
| LFunction
| LRef (a : addr)
| LOther (v : Unclassified).

Inductive HeapObject : Type :=
| ListPairWidget (key value : Literal)
| ExternalLinkWidget (url : string) (display : option string)
| UnknownWidget (widget : string)
| Array (elements : list Literal)
| DataArray (elements : list Literal)
| Object (constructor_name : option string) (entries : list (string * Literal)).

Definition Heap : Type := addr -> HeapObject.

Inductive ValueRenderContext : Type := root | list_ctx.

(** [field?.constructor?.name && field?.constructor?.name != "Object"] *)
Definition isForeignObject (constructor_name : option string) : option string :=
  match constructor_name with
  | Some name =>
      if negb (String.eqb name "") && negb (String.eqb name "Object")
      then Some name else None
  | None => None
  end.

(** ** [renderValue] *)

Section Render.
Variable heap : Heap.
Variable originFile : string.
Variable component : Component.
Variable settings : QuerySettings.
Variable expandList : bool.

(** [for (let child of field) { let li = list.createEl("li", ...); await renderValue(child, li, ...) }] *)
Fixpoint forEachItem (A : Type) (cls : list string)
    (item : A -> Container -> Taking) (l : list A) (list_el : Container) : Taking :=
  match l with
  | [] => Some (list_el, Returned, [])
  | child :: rest =>
      andThen (createEl "li" cls (item child) list_el)
              (forEachItem cls item rest)
  end.

(** [let first = true; for (let val of field) { if (first) first = false; else span.appendText(", "); ... }] *)
Fixpoint forEachJoined (A : Type) (item : A -> Container -> Taking)
    (first : bool) (l : list A) (span : Container) : Taking :=
  match l with
  | [] => Some (span, Returned, [])
  | val :: rest =>
      let span1 := if first then span else appendText span ", " in
      andThen (item val span1) (forEachJoined item false rest)
  end.

Definition list_ul_classes (context : ValueRenderContext) : list string :=
  ["dataview"; "dataview-ul";
   match context with
   | list_ctx => "dataview-result-list-ul"
   | root => "dataview-result-list-root-ul"
   end].

Definition externalLinkElement (url : string) (display : option string) : Node :=
  Element "a" ["external-link"]
          [("rel", "noopener"); ("target", "_blank"); ("href", url)]
          (setTextContent (match display with Some d => d | None => url end)).

(** In what follows [self] stands for the recursive calls of [renderValue]. *)
Section Body.
Variable self : Literal -> Container -> ValueRenderContext -> Z -> Taking.

(** Lines 133-159: the branch of arrays and data arrays. *)
Definition renderSequence (elements : list Literal) (container : Container)
    (context : ValueRenderContext) (depth : Z) : Taking :=
  if expandList then
    createEl "ul" (list_ul_classes context)
      (forEachItem ["dataview-result-list-li"]
         (fun child li => self child li list_ctx (depth + 1))
         elements)
      container
  else
    match elements with
    | [] => taking_nothing (appendText container "<empty list>", Returned)
    | _ =>
        createEl "span" ["dataview"; "dataview-result-list-span"]
          (forEachJoined
             (fun val span => self val span list_ctx (depth + 1))
             true elements)
          container
    end.

(** Lines 161-189: the branch of objects. *)
Definition renderObject (constructor_name : option string)
    (entries : list (string * Literal)) (container : Container)
    (depth : Z) : Taking :=
  match isForeignObject constructor_name with
  | Some name =>
      taking_nothing (appendText container ("<" ++ name ++ ">")%string, Returned)
  | None =>
      if expandList then
        createEl "ul" ["dataview"; "dataview-ul"; "dataview-result-object-ul"]
          (forEachItem ["dataview"; "dataview-li"; "dataview-result-object-li"]
             (fun (entry : string * Literal) li =>
                self (snd entry)
                  (appendText li (fst entry ++ ": ")%string) list_ctx (depth + 1))
             entries)
          container
      else
        match entries with
        | [] => taking_nothing (appendText container "<empty object>", Returned)
        | _ =>
            createEl "span" ["dataview"; "dataview-result-object-span"]
              (forEachJoined
                 (fun (entry : string * Literal) span =>
                    self (snd entry)
                      (appendText span (fst entry ++ ": ")%string) list_ctx (depth + 1))
                 true entries)
              container
        end
  end.

(** Lines 115-118: the branch of list pairs. *)
Definition renderListPair (key value : Literal) (container : Container)
    (context : ValueRenderContext) (depth : Z) : Taking :=
  andThen (self key container context depth)
    (fun container => self value (appendText container ": ") context depth).

(** Line 113, [container.appendChild(field)]: the DOM refuses an element that
    contains the container, and moves any other. *)
Definition renderHtml (h : HtmlElement) (container : Container) : Taking :=
  if contains_container h then
    taking_nothing (container, Raised (DOMException "HierarchyRequestError"))
  else
    Some (attach container h, Returned, [h]).

(** Line 191: the text is appended unless [JSON.stringify] throws. *)
Definition renderUnrecognized (v : Unclassified) (container : Container) : Taking :=
  match JSON_stringify v with
  | inl dump =>
      taking_nothing
        (appendText container ("Unrecognized: " ++ dump)%string, Returned)
  | inr e => taking_nothing (container, Raised e)
  end.

(** The body of [renderValue]. *)
Definition renderValue_body (field : Literal) (container : Container)
    (context : ValueRenderContext) (depth : Z) : Taking :=
  if depth >? maxRecursiveRenderDepth settings then
    taking_nothing (appendText container "...", Returned)
  else
  match field with
  | LNull =>
      taking_nothing
        (renderCompactMarkdown (renderNullAs settings) container originFile component)
  | LDate d =>
      taking_nothing
        (appendText container (renderMinimalDate d settings currentLocale), Returned)
  | LDuration d =>
      taking_nothing (appendText container (renderMinimalDuration d), Returned)
  | LString s =>
      taking_nothing (renderCompactMarkdown s container originFile component)
  | LBoolean b =>
      taking_nothing
        (renderCompactMarkdown (if b then "true" else "false")
           container originFile component)
  | LNumber n =>
      taking_nothing
        (renderCompactMarkdown (Number_toString n) container originFile component)
  | LLink l =>
      taking_nothing
        (renderCompactMarkdown (Link_markdown l) container originFile component)
  | LHtml h => renderHtml h container
  | LRef a =>
      match heap a with
      | ListPairWidget key value =>
          renderListPair key value container context depth
      | ExternalLinkWidget url display =>
          taking_nothing
            (appendChild container (externalLinkElement url display), Returned)
      | UnknownWidget widget =>
          taking_nothing
            (appendText container ("<unknown widget '" ++ widget ++ ">")%string,
             Returned)
      | Array elements => renderSequence elements container context depth
      | DataArray elements => renderSequence elements container context depth
      | Object constructor_name entries =>
          renderObject constructor_name entries container depth
      end
  | LFunction =>
      taking_nothing (appendText container "<function>", Returned)
  | LOther v => renderUnrecognized v container
  end.

End Body.

(** [renderValue] with the existing elements that the call has attached:
    [fuel] bounds the number of nested calls; [None] is a call that has not
    come back within that bound. *)
Fixpoint renderValue_taking (fuel : nat)
  : Literal -> Container -> ValueRenderContext -> Z -> Taking :=
  match fuel with
  | O => fun _ _ _ _ => None
  | S fuel => renderValue_body (renderValue_taking fuel)
  end.

(** [renderValue] as its caller sees the container. *)
Definition renderValue (fuel : nat) (field : Literal) (container : Container)
    (context : ValueRenderContext) (depth : Z) : Result :=
  forgetTaken (renderValue_taking fuel field container context depth).

End Render.
End Model.

(** ** Vocabulary of the statements *)

(** [el.textContent] of a tree of created nodes: the text of all text nodes
    below [el], in order.  What an existing element holds is not in the
    tree. *)
Fixpoint textContent (n : Node) : string :=
  match n with
  | Text data => data
  | Element _ _ _ kids =>
      (fix concat (l : list Node) : string :=
         match l with
         | [] => ""
         | k :: rest => (textContent k ++ concat rest)%string
         end) kids
  | Existing _ => ""
  end.

Fixpoint lookupAttribute (name : string) (attrs : list (string * string))
  : option string :=
  match attrs with
  | [] => None
  | (k, v) :: rest => if String.eqb k name then Some v else lookupAttribute name rest
  end.

(** [el.getAttribute(name)] of a created element *)
Definition getAttribute (name : string) (n : Node) : option string :=
  match n with
  | Element _ _ attrs _ => lookupAttribute name attrs
  | _ => None
  end.

Definition hasClass (cls : string) (n : Node) : Prop :=
  match n with
  | Element _ classes _ _ => In cls classes
  | _ => False
  end.

(** The node lists [parts], each after the separator [sep]. *)
Fixpoint precededBy (sep : Node) (parts : list (list Node)) : list Node :=
  match parts with
  | [] => []
  | part :: rest => sep :: part ++ precededBy sep rest
  end.

(** The node lists [parts] with [sep] between them: no separator before
    the first, none after the last. *)
Definition separatedBy (sep : Node) (parts : list (list Node)) : list Node :=
  match parts with
  | [] => []
  | part :: rest => part ++ precededBy sep rest
  end.

(** The sub-node has exactly one child element, [p], and it is a paragraph. *)
Definition onlyChildIsParagraph (sub : Container) (p : Node) : Prop :=
  children sub = [p] /\ isParagraph p = true.

(** A node with every class list emptied, at every level. *)
Fixpoint stripClasses (n : Node) : Node :=
  match n with
  | Text data => Text data
  | Element tag _ attrs kids => Element tag [] attrs (map stripClasses kids)
  | Existing h => Existing h
  end.

(** Two containers that differ at most in class lists. *)
Definition sameClassless (c1 c2 : list Node) : Prop :=
  map stripClasses c1 = map stripClasses c2.

(** The list items of an expanded list, one per list of child nodes. *)
Definition listItems (cls : list string) (parts : list (list Node)) : list Node :=
  map (fun kids => Element "li" cls [] kids) parts.

(** The parts of a compact object: each value's nodes after its ["key: "]. *)
Definition labelledParts (A : Type) (entries : list (string * A))
    (parts : list (list Node)) : list (list Node) :=
  map (fun ep => Text (fst (fst ep) ++ ": ")%string :: snd ep)
      (combine entries parts).

(** The renders of the values of the entries, each with its ["key: "] in
    front. *)
Definition labelledRenders (A : Type) (entries : list (string * A))
    (rs : list (Container * list HtmlElement))
  : list (Container * list HtmlElement) :=
  map (fun er => (Text (fst (fst er) ++ ": ")%string :: fst (snd er),
                  snd (snd er)))
      (combine entries rs).

(** The existing elements attached by a series of renders, in their order. *)
Definition takenBy (rs : list (Container * list HtmlElement))
  : list HtmlElement :=
  flat_map snd rs.

(** What a series of renders into nodes of their own leaves in each node:
    what the render put there, without the existing elements that a later
    render of the series has attached. *)
Fixpoint settle (rs : list (Container * list HtmlElement)) : list Container :=
  match rs with
  | [] => []
  | (part, _) :: rest => detachAll (takenBy rest) part :: settle rest
  end.

Section Vocabulary.
Context {H : Host}.

(** One result is at least as defined as the other. *)
Definition res_le (r1 r2 : Taking) : Prop :=
  forall r, r1 = Some r -> r2 = Some r.

(** [b] is the key or the value of the list pair at [a]. *)
Definition pairChild (heap : Heap) (b a : addr) : Prop :=
  exists key value,
    heap a = ListPairWidget key value /\ (key = LRef b \/ value = LRef b).

(** The call [renderValue(field, container, originFile, component, settings,
    expandList, context, depth)] comes back with [r]. *)
Definition renders (heap : Heap) (originFile : string) (component : Component)
    (settings : QuerySettings) (expandList : bool)
    (field : Literal) (container : Container)
    (context : ValueRenderContext) (depth : Z)
    (r : Container * Outcome Error) : Prop :=
  exists fuel,
    renderValue heap originFile component settings expandList
                fuel field container context depth = Some r.

(** The call comes back with [r], having attached the existing elements
    [taken]. *)
Definition rendersTaking (heap : Heap) (originFile : string)
    (component : Component) (settings : QuerySettings) (expandList : bool)
    (field : Literal) (container : Container)
    (context : ValueRenderContext) (depth : Z)
    (r : Container * Outcome Error) (taken : list HtmlElement) : Prop :=
  exists fuel,
    renderValue_taking heap originFile component settings expandList
                       fuel field container context depth = Some (r, taken).

(** The call comes back with [r] whatever its recursive calls would do: it
    makes none, and it attaches no existing element. *)
Definition returnsAtOnce (heap : Heap) (originFile : string)
    (component : Component) (settings : QuerySettings) (expandList : bool)
    (field : Literal) (container : Container)
    (context : ValueRenderContext) (depth : Z)
    (r : Container * Outcome Error) : Prop :=
  forall self,
    renderValue_body heap originFile component settings expandList
                     self field container context depth = Some (r, []).

(** *** The spec's words, for the comparisons

    The rendering of a list pair as the spec words it: the render of the
    key, then the text [": "], then the render of the value, under the same
    context and at the same depth; a failure of the key ends the call. *)
Definition keyColonValue
    (rendersTo : Literal -> Container -> Container * Outcome Error -> Prop)
    (key value : Literal) (container : Container)
    (r : Container * Outcome Error) : Prop :=
  (exists c1, rendersTo key container (c1, Returned) /\
              rendersTo value (appendText c1 ": ") r)
  \/ (exists c1 e, rendersTo key container (c1, Raised e) /\ r = (c1, Raised e)).

(** What a call that only adds to its container leaves in a container that
    holds [c] already, given what it leaves in an empty one: the existing
    elements it attaches leave [c]. *)
Definition added_to (c : Container) (r : Taking) : Taking :=
  match r with
  | None => None
  | Some (added, o, taken) => Some (detachAll taken c ++ added, o, taken)
  end.

(** The host raised [e] on some markdown text of a render with this origin
    and component. *)
Definition hostRaised (originFile : string) (component : Component)
    (e : Error) : Prop :=
  exists markdown,
    snd (MarkdownRenderer_renderMarkdown markdown [] originFile component) = Raised e.

(** The failures that a render can end in: one of the host, one of
    [JSON.stringify], or the refusal of the DOM to attach an element that
    contains the container. *)
Definition knownFailure (originFile : string) (component : Component)
    (e : Error) : Prop :=
  hostRaised originFile component e
  \/ (exists v, JSON_stringify v = inr e)
  \/ (e = DOMException "HierarchyRequestError"
      /\ exists h, contains_container h = true).

(** Every failure of the step is one of the known failures. *)
Definition failsKnown (originFile : string) (component : Component)
    (r : Taking) : Prop :=
  forall c e t, r = Some (c, Raised e, t) -> knownFailure originFile component e.

(** Two values, each in its heap, that are the same down to [n] levels of
    sequences and mappings; what lies below is unconstrained, and so are the
    fields of an object with a foreign constructor name. *)
Inductive sameUpTo (h1 h2 : Heap) : nat -> Literal -> Literal -> Prop :=
| same_cut v1 v2 : sameUpTo h1 h2 O v1 v2
| same_scalar n v : (forall a, v <> LRef a) -> sameUpTo h1 h2 (S n) v v
| same_ref n a1 a2 :
    sameObject h1 h2 n (h1 a1) (h2 a2) ->
    sameUpTo h1 h2 (S n) (LRef a1) (LRef a2)
with sameObject (h1 h2 : Heap) : nat -> HeapObject -> HeapObject -> Prop :=
| same_pair n k1 v1 k2 v2 :
    sameUpTo h1 h2 (S n) k1 k2 -> sameUpTo h1 h2 (S n) v1 v2 ->
    sameObject h1 h2 n (ListPairWidget k1 v1) (ListPairWidget k2 v2)
| same_external n url display :
    sameObject h1 h2 n (ExternalLinkWidget url display) (ExternalLinkWidget url display)
| same_unknown n widget :
    sameObject h1 h2 n (UnknownWidget widget) (UnknownWidget widget)
| same_array n l1 l2 :
    Forall2 (sameUpTo h1 h2 n) l1 l2 ->
    sameObject h1 h2 n (Array l1) (Array l2)
| same_dataArray n l1 l2 :
    Forall2 (sameUpTo h1 h2 n) l1 l2 ->
    sameObject h1 h2 n (DataArray l1) (DataArray l2)
| same_foreign n name1 name2 tag e1 e2 :
    isForeignObject name1 = Some tag -> isForeignObject name2 = Some tag ->
    sameObject h1 h2 n (Object name1 e1) (Object name2 e2)
| same_object n name1 name2 e1 e2 :
    isForeignObject name1 = None -> isForeignObject name2 = None ->
    Forall2 (fun x y => fst x = fst y /\ sameUpTo h1 h2 n (snd x) (snd y)) e1 e2 ->
    sameObject h1 h2 n (Object name1 e1) (Object name2 e2).

(** Two results that differ at most in class lists. *)
Definition sameModuloClasses (r1 r2 : Result) : Prop :=
  match r1, r2 with
  | None, None => True
  | Some (c1, o1), Some (c2, o2) => sameClassless c1 c2 /\ o1 = o2
  | _, _ => False
  end.

(** Two calls that end alike and attach the same existing elements, and
    differ at most in the class lists they leave. *)
Definition sameTakingModuloClasses (r1 r2 : Taking) : Prop :=
  match r1, r2 with
  | None, None => True
  | Some (c1, o1, t1), Some (c2, o2, t2) =>
      sameClassless c1 c2 /\ o1 = o2 /\ t1 = t2
  | _, _ => False
  end.

(** Two calls that both fail, both return or are both undefined, and attach
    the same existing elements. *)
Definition sameOutcome (r1 r2 : Taking) : Prop :=
  match r1, r2 with
  | None, None => True
  | Some (_, o1, t1), Some (_, o2, t2) => o1 = o2 /\ t1 = t2
  | _, _ => False
  end.

(** The values that [renderValue] hands to [renderCompactMarkdown]: null,
    strings, booleans, numbers and links. *)
Definition isMarkdownRendered (v : Literal) : bool :=
  match v with
  | LNull | LString _ | LBoolean _ | LNumber _ | LLink _ => true
  | _ => false
  end.

(** The markdown text that [renderValue] hands to [renderCompactMarkdown]
    for such a value (lines 102-111). *)
Definition markdownText (settings : QuerySettings) (v : Literal)
  : option string :=
  match v with
  | LNull => Some (renderNullAs settings)
  | LString s => Some s
  | LBoolean b => Some (if b then "true" else "false")
  | LNumber n => Some (Number_toString n)
  | LLink l => Some (Link_markdown l)
  | _ => None
  end.

(** No list pair has a list pair as its key or as its value. *)
Definition flatPairs (heap : Heap) : Prop :=
  forall a key value b,
    heap a = ListPairWidget key value ->
    key = LRef b \/ value = LRef b ->
    forall key' value', heap b <> ListPairWidget key' value'.

(** The host renders every markdown text of this origin and component
    without failing. *)
Definition hostNeverFails (originFile : string) (component : Component) : Prop :=
  forall markdown,
    snd (MarkdownRenderer_renderMarkdown markdown [] originFile component)
    = Returned.

(** [JSON.stringify] throws on no value that the tests of [Values] leave
    unrecognised. *)
Definition dumpNeverThrows : Prop :=
  forall v, exists dump, JSON_stringify v = inl dump.

(** No existing element contains the container. *)
Definition noneContainsContainer : Prop :=
  forall h, contains_container h = false.

End Vocabulary.

(** ** Concrete hosts and heaps, for the examples *)

(** The values that no test of [Values] recognises. *)
Inductive DemoUnclassified : Type :=
| ASymbol (description : string)
| ABigInt (n : Z).

(** A host that renders every markdown text as one paragraph holding the
    text, and fails on the text ["!"]; the existing element 0 contains the
    container. *)
Definition demoHost : Host := {|
  DateTime := string;
  Duration := string;
  Link := string;
  Number := string;
  Unclassified := DemoUnclassified;
  Error := string;
  MarkdownRenderer_renderMarkdown := fun markdown el _ _ =>
    if String.eqb markdown "!" then (el, Raised "host failure")
    else (el ++ [Element "p" [] [] [Text markdown]], Returned);
  currentLocale := "en";
  renderMinimalDate := fun d _ _ => d;
  renderMinimalDuration := fun d => d;
  Link_markdown := fun l => ("[[" ++ l ++ "]]")%string;
  Number_toString := fun n => n;
  JSON_stringify := fun v =>
    match v with
    | ASymbol _ => inl "undefined"
    | ABigInt _ => inr "TypeError: Do not know how to serialize a BigInt"
    end;
  DOMException := fun name => name;
  contains_container := fun h => Nat.eqb h 0
|}.

(** A host like [demoHost] in which nothing fails: the markdown renderer
    fails on no text, every unrecognised value is a symbol, and no existing
    element contains the container. *)
Definition quietHost : Host := {|
  DateTime := string;
  Duration := string;
  Link := string;
  Number := string;
  Unclassified := string;
  Error := string;
  MarkdownRenderer_renderMarkdown := fun markdown el _ _ =>
    (el ++ [Element "p" [] [] [Text markdown]], Returned);
  currentLocale := "en";
  renderMinimalDate := fun d _ _ => d;
  renderMinimalDuration := fun d => d;
  Link_markdown := fun l => ("[[" ++ l ++ "]]")%string;
  Number_toString := fun n => n;
  JSON_stringify := fun _ => inl "undefined";
  DOMException := fun name => name;
  contains_container := fun _ => false
|}.

Section QuietDemo.
#[local] Existing Instance quietHost.

(** An array that holds itself, an existing element and a symbol. *)
Definition quietHeap : Heap :=
  fun _ => Array [LRef 0%nat; LHtml 7%nat; LOther "sym"].

End QuietDemo.

Section Demo.
#[local] Existing Instance demoHost.

Definition demoSettings : QuerySettings :=
  {| maxRecursiveRenderDepth := 2; renderNullAs := "-" |}.

(** [w = listPair(1, 2); w.key = w] at every address. *)
Definition selfPairHeap : Heap :=
  fun _ => ListPairWidget (LRef 0%nat) (LNumber "2").

Definition demoHeap : Heap := fun a =>
  match a with
  | 0%nat => Array [LRef 0%nat; LString "a"]
  | 1%nat => Object (Some "Object") [("self", LRef 1%nat)]
  | 2%nat => ListPairWidget (LString "k") (LNumber "5")
  | 3%nat => ExternalLinkWidget "https://x" None
  | 4%nat => UnknownWidget "custom"
  | 5%nat => Array [LString "a"; LString "b"; LString "c"]
  | 6%nat => Array []
  | 7%nat => Object (Some "Object") []
  | 8%nat => Object (Some "Foo") [("me", LRef 8%nat)]
  | 9%nat => DataArray []
  | _ => Array []
  end.

Definition demoHeap2 : Heap := fun a =>
  match a with
  | 0%nat => Object (Some "Object") [("a", LString "x"); ("b", LNumber "1")]
  | 1%nat => Array [LString "a"; LString "!"; LRef 2%nat]
  | 2%nat => ListPairWidget (LRef 2%nat) (LNumber "2")
  | 3%nat => Array [LString "a"; LString "b"]
  | 4%nat => DataArray [LString "a"; LString "b"]
  | 5%nat => Object (Some "") [("a", LString "x"); ("b", LNumber "1")]
  | _ => Array []
  end.

(** Values with existing elements: the element 7 twice in an array and in
    an object, the element 7 before a string, and an empty object of the
    class [Foo]. *)
Definition demoHeap3 : Heap := fun a =>
  match a with
  | 0%nat => Array [LHtml 7%nat; LHtml 7%nat]
  | 1%nat => Object (Some "Foo") []
  | 2%nat => Array [LHtml 7%nat; LString "a"]
  | 3%nat => Object None [("a", LHtml 7%nat); ("b", LHtml 7%nat)]
  | 4%nat => Array [LHtml 7%nat; LHtml 7%nat; LString "!"; LRef 5%nat]
  | 5%nat => ListPairWidget (LRef 5%nat) (LNumber "2")
  | _ => Array []
  end.

(** A heap that agrees with [demoHeap] at the address 0 in the number of
    elements of the array and in nothing else. *)
Definition otherHeap : Heap :=
  fun _ => Array [LString "x"; LNumber "7"].

End Demo.

(** ** General facts *)

Lemma hoistLoop_app (pkids tail : list Node) :
  hoistLoop pkids tail = tail ++ pkids.
Proof.
  revert tail; induction pkids as [|k pkids IH]; intros tail; simpl.
  - now rewrite app_nil_r.
  - rewrite IH, <- app_assoc. reflexivity.
Qed.

(** *** Taking existing elements out of a tree *)

Lemma detachFrom_app h (a b : Container) :
  detachFrom h (a ++ b) = detachFrom h a ++ detachFrom h b.
Proof. apply flat_map_app. Qed.

Lemma detachAll_app hs : forall (a b : Container),
  detachAll hs (a ++ b) = detachAll hs a ++ detachAll hs b.
Proof.
  induction hs as [|h hs IH]; intros a b; simpl; [reflexivity|].
  now rewrite detachFrom_app, IH.
Qed.

Lemma detachAll_taken_app hs1 hs2 (c : Container) :
  detachAll (hs1 ++ hs2) c = detachAll hs2 (detachAll hs1 c).
Proof. apply fold_left_app. Qed.

Lemma detachAll_nil hs : detachAll hs [] = [].
Proof. induction hs as [|h hs IH]; simpl; [reflexivity | exact IH]. Qed.

Lemma detachAll_Text hs s : detachAll hs [Text s] = [Text s].
Proof. induction hs as [|h hs IH]; simpl; [reflexivity | exact IH]. Qed.

Lemma detachAll_Element hs : forall tag cls attrs kids,
  detachAll hs [Element tag cls attrs kids]
  = [Element tag cls attrs (detachAll hs kids)].
Proof.
  induction hs as [|h hs IH]; intros tag cls attrs kids; simpl; [reflexivity|].
  apply IH.
Qed.

Section Facts.
Context {H : Host}.

Lemma res_le_refl (r : Taking) : res_le r r.
Proof. intros x Hx; exact Hx. Qed.

Lemma andThen_mono (r1 r2 : Taking) (k1 k2 : Container -> Taking) :
  res_le r1 r2 -> (forall c, res_le (k1 c) (k2 c)) ->
  res_le (andThen r1 k1) (andThen r2 k2).
Proof.
  intros Hr Hk r. unfold andThen.
  destruct r1 as [[[c [|e]] t]|]; try discriminate.
  - rewrite (Hr _ eq_refl).
    destruct (k1 c) as [[[c' o] t']|] eqn:E; [|discriminate].
    now rewrite (Hk _ _ E).
  - rewrite (Hr _ eq_refl). exact (fun E => E).
Qed.

Lemma createEl_mono tag cls (b1 b2 : Container -> Taking) parent :
  (forall c, res_le (b1 c) (b2 c)) ->
  res_le (createEl tag cls b1 parent) (createEl tag cls b2 parent).
Proof.
  intros Hb r. unfold createEl.
  destruct (b1 []) as [[[kids o] t]|] eqn:E; try discriminate.
  rewrite (Hb _ _ E). exact (fun X => X).
Qed.

Lemma forEachItem_mono (A : Type) cls (f g : A -> Container -> Taking) l :
  (forall x c, res_le (f x c) (g x c)) ->
  forall c, res_le (forEachItem cls f l c) (forEachItem cls g l c).
Proof.
  intros Hfg. induction l as [|x l IH]; intros c; simpl.
  - apply res_le_refl.
  - apply andThen_mono; [apply createEl_mono; intros; apply Hfg | exact IH].
Qed.

Lemma forEachJoined_mono (A : Type) (f g : A -> Container -> Taking) l :
  (forall x c, res_le (f x c) (g x c)) ->
  forall first c,
    res_le (forEachJoined f first l c) (forEachJoined g first l c).
Proof.
  intros Hfg. induction l as [|x l IH]; intros first c; simpl.
  - apply res_le_refl.
  - apply andThen_mono; [apply Hfg | intros; apply IH].
Qed.

Lemma andThen_ext (r : Taking) (k1 k2 : Container -> Taking) :
  (forall c, k1 c = k2 c) -> andThen r k1 = andThen r k2.
Proof. intros E. destruct r as [[[c [|e]] t]|]; simpl; [now rewrite E| |]; auto. Qed.

Lemma createEl_ext tag cls (b1 b2 : Container -> Taking) parent :
  (forall c, b1 c = b2 c) -> createEl tag cls b1 parent = createEl tag cls b2 parent.
Proof. intros E. unfold createEl. now rewrite E. Qed.

Section Fixed.
Variable heap : Heap.
Variable originFile : string.
Variable component : Component.
Variable settings : QuerySettings.
Variable expandList : bool.

Local Notation "'body'" :=
  (renderValue_body heap originFile component settings expandList).
Local Notation "'render'" :=
  (renderValue_taking heap originFile component settings expandList).
Local Notation "'sequence'" := (renderSequence expandList).
Local Notation "'object'" := (renderObject expandList).

Lemma renderSequence_mono
    (f g : Literal -> Container -> ValueRenderContext -> Z -> Taking) :
  (forall v c x d, res_le (f v c x d) (g v c x d)) ->
  forall els c x d, res_le (sequence f els c x d) (sequence g els c x d).
Proof.
  intros Hfg els c x d. unfold renderSequence.
  destruct expandList.
  - apply createEl_mono; intros; apply forEachItem_mono; intros; apply Hfg.
  - destruct els; [apply res_le_refl|].
    apply createEl_mono; intros; apply forEachJoined_mono; intros; apply Hfg.
Qed.

Lemma renderObject_mono
    (f g : Literal -> Container -> ValueRenderContext -> Z -> Taking) :
  (forall v c x d, res_le (f v c x d) (g v c x d)) ->
  forall name entries c d,
    res_le (object f name entries c d) (object g name entries c d).
Proof.
  intros Hfg name entries c d. unfold renderObject.
  destruct (isForeignObject name); [apply res_le_refl|].
  destruct expandList.
  - apply createEl_mono; intros; apply forEachItem_mono; intros; apply Hfg.
  - destruct entries; [apply res_le_refl|].
    apply createEl_mono; intros; apply forEachJoined_mono; intros; apply Hfg.
Qed.

Lemma renderValue_body_mono
    (f g : Literal -> Container -> ValueRenderContext -> Z -> Taking) :
  (forall v c x d, res_le (f v c x d) (g v c x d)) ->
  forall v c x d, res_le (body f v c x d) (body g v c x d).
Proof.
  intros Hfg v c x d. unfold renderValue_body.
  destruct (d >? maxRecursiveRenderDepth settings); [apply res_le_refl|].
  destruct v; try apply res_le_refl.
  destruct (heap a) as [k w|url disp|tag|els|els|name entries];
    try apply res_le_refl.
  - apply andThen_mono; [apply Hfg | intros; apply Hfg].
  - now apply renderSequence_mono.
  - now apply renderSequence_mono.
  - now apply renderObject_mono.
Qed.

Lemma renderValue_taking_mono_S (fuel : nat) :
  forall v c x d, res_le (render fuel v c x d) (render (S fuel) v c x d).
Proof.
  induction fuel as [|fuel IH]; intros v c x d.
  - intros r Hr; discriminate.
  - change (res_le (body (render fuel) v c x d) (body (render (S fuel)) v c x d)).
    apply renderValue_body_mono. exact IH.
Qed.

(** More fuel never changes a result. *)
Lemma renderValue_taking_mono (fuel fuel' : nat) :
  (fuel <= fuel')%nat ->
  forall v c x d, res_le (render fuel v c x d) (render fuel' v c x d).
Proof.
  induction 1 as [|m _ IH]; intros v c x d.
  - apply res_le_refl.
  - intros r Hr. apply renderValue_taking_mono_S. now apply IH.
Qed.

Lemma renderValue_mono (fuel fuel' : nat) v c x d r :
  (fuel <= fuel')%nat ->
  renderValue heap originFile component settings expandList fuel v c x d
    = Some r ->
  renderValue heap originFile component settings expandList fuel' v c x d
    = Some r.
Proof.
  intros Hle. unfold renderValue.
  destruct (render fuel v c x d) as [[[c0 o0] t]|] eqn:E; [|discriminate].
  now rewrite (renderValue_taking_mono Hle _ _ _ _ E).
Qed.

(** A call has at most one result. *)
Lemma renders_deterministic v c x d r1 r2 :
  renders heap originFile component settings expandList v c x d r1 ->
  renders heap originFile component settings expandList v c x d r2 ->
  r1 = r2.
Proof.
  intros [f1 E1] [f2 E2].
  apply renderValue_mono with (fuel' := Nat.max f1 f2) in E1;
    [|apply Nat.le_max_l].
  apply renderValue_mono with (fuel' := Nat.max f1 f2) in E2;
    [|apply Nat.le_max_r].
  congruence.
Qed.

Lemma renders_rendersTaking v c x d r :
  renders heap originFile component settings expandList v c x d r ->
  exists taken,
    rendersTaking heap originFile component settings expandList
                  v c x d r taken.
Proof.
  intros [fuel E]. unfold renderValue in E.
  destruct (render fuel v c x d) as [[[c0 o0] t]|] eqn:E0; [|discriminate].
  injection E as <-. exists t, fuel. exact E0.
Qed.

(** *** Loops come back when their items do *)

Lemma forEachItem_total (A : Type) cls (item : nat -> A -> Container -> Taking)
    (l : list A) :
  (forall n m x c, (n <= m)%nat -> res_le (item n x c) (item m x c)) ->
  (forall x, In x l -> forall c, exists n r, item n x c = Some r) ->
  forall c, exists n r, forEachItem cls (item n) l c = Some r.
Proof.
  intros Hmono. induction l as [|x l IH]; intros Hall c; simpl.
  - exists O. eexists. reflexivity.
  - destruct (Hall x (or_introl eq_refl) []) as [n1 [[[kids o] t] E1]].
    destruct o as [|e].
    + destruct (IH (fun y Hy => Hall y (or_intror Hy))
                   (detachAll t c ++ [Element "li" cls [] kids]))
        as [n2 [[[c2 o2] t2] E2]].
      exists (Nat.max n1 n2). eexists. unfold createEl.
      rewrite (Hmono _ _ x [] (Nat.le_max_l n1 n2) _ E1). simpl.
      assert (E2' : forEachItem cls (item (Nat.max n1 n2)) l
                      (detachAll t c ++ [Element "li" cls [] kids])
                    = Some (c2, o2, t2)).
      { eapply forEachItem_mono; [|exact E2].
        intros y c'. apply Hmono, Nat.le_max_r. }
      rewrite E2'. reflexivity.
    + exists n1. eexists. unfold createEl. rewrite E1. reflexivity.
Qed.

Lemma forEachJoined_total (A : Type) (item : nat -> A -> Container -> Taking)
    (l : list A) :
  (forall n m x c, (n <= m)%nat -> res_le (item n x c) (item m x c)) ->
  (forall x, In x l -> forall c, exists n r, item n x c = Some r) ->
  forall first c, exists n r, forEachJoined (item n) first l c = Some r.
Proof.
  intros Hmono. induction l as [|x l IH]; intros Hall first c; simpl.
  - exists O. eexists. reflexivity.
  - destruct (Hall x (or_introl eq_refl)
                (if first then c else appendText c ", "))
      as [n1 [[[c1 o] t] E1]].
    destruct o as [|e].
    + destruct (IH (fun y Hy => Hall y (or_intror Hy)) false c1)
        as [n2 [[[c2 o2] t2] E2]].
      exists (Nat.max n1 n2). eexists.
      rewrite (Hmono _ _ x _ (Nat.le_max_l n1 n2) _ E1). simpl.
      assert (E2' : forEachJoined (item (Nat.max n1 n2)) false l c1
                    = Some (c2, o2, t2)).
      { eapply forEachJoined_mono; [|exact E2].
        intros y c'. apply Hmono, Nat.le_max_r. }
      rewrite E2'. reflexivity.
    + exists n1. eexists. rewrite E1. reflexivity.
Qed.

Lemma createEl_total tag cls (b : nat -> Container -> Taking) parent :
  (exists n r, b n [] = Some r) ->
  exists n r, createEl tag cls (b n) parent = Some r.
Proof.
  intros [n [[[kids o] t] E]]. exists n. unfold createEl. rewrite E. eauto.
Qed.

Lemma if_total (b : bool) (A B : nat -> Taking) :
  (exists n r, A n = Some r) -> (exists n r, B n = Some r) ->
  exists n r, (if b then A n else B n) = Some r.
Proof. destruct b; auto. Qed.

(** *** Termination *)

Lemma renderHtml_total h c : exists r, renderHtml h c = Some r.
Proof.
  unfold renderHtml, taking_nothing.
  destruct (contains_container h); eexists; reflexivity.
Qed.

Lemma renderUnrecognized_total v c : exists r, renderUnrecognized v c = Some r.
Proof.
  unfold renderUnrecognized, taking_nothing.
  destruct (JSON_stringify v); eexists; reflexivity.
Qed.

(** A value that is not a reference is rendered by one call. *)
Lemma render_scalar_total v c x d :
  (forall a, v <> LRef a) -> exists r, render 1 v c x d = Some r.
Proof.
  intros Hv. simpl. unfold renderValue_body.
  destruct (d >? maxRecursiveRenderDepth settings);
    [unfold taking_nothing; eauto|].
  destruct v; unfold taking_nothing;
    try (eexists; reflexivity);
    try apply renderHtml_total; try apply renderUnrecognized_total.
  now destruct (Hv a).
Qed.

(** Above the bound every call comes back at once. *)
Lemma render_guard fuel v c x d :
  d > maxRecursiveRenderDepth settings ->
  render (S fuel) v c x d = Some (appendText c "...", Returned, []).
Proof.
  intros Hd. simpl. unfold renderValue_body.
  apply Z.gtb_gt in Hd. now rewrite Hd.
Qed.

Lemma guard_passed d :
  d <= maxRecursiveRenderDepth settings ->
  (d >? maxRecursiveRenderDepth settings) = false.
Proof. intros Hd. rewrite Z.gtb_ltb. apply Z.ltb_ge. lia. Qed.

(** Below the bound a call on a reference runs the branch of its object. *)
Lemma render_ref fuel a c x d :
  d <= maxRecursiveRenderDepth settings ->
  render (S fuel) (LRef a) c x d =
  match heap a with
  | ListPairWidget key value => renderListPair (render fuel) key value c x d
  | ExternalLinkWidget url display =>
      Some (appendChild c (externalLinkElement url display), Returned, [])
  | UnknownWidget widget =>
      Some (appendText c ("<unknown widget '" ++ widget ++ ">")%string,
            Returned, [])
  | Array elements => sequence (render fuel) elements c x d
  | DataArray elements => sequence (render fuel) elements c x d
  | Object name entries => object (render fuel) name entries c d
  end.
Proof.
  intros Hd. simpl. unfold renderValue_body. rewrite (guard_passed Hd).
  now destruct (heap a).
Qed.

Lemma renderSequence_total els c x d :
  (forall v c x, exists fuel r, render fuel v c x (d + 1) = Some r) ->
  exists n r, sequence (render n) els c x d = Some r.
Proof.
  intros Hdeep. unfold renderSequence. apply if_total.
  - apply createEl_total.
    apply (forEachItem_total _
             (fun n child li => render n child li list_ctx (d + 1))).
    + intros; now apply renderValue_taking_mono.
    + intros; apply Hdeep.
  - destruct els as [|v0 els]; [exists O; unfold taking_nothing; eauto|].
    apply createEl_total.
    apply (forEachJoined_total
             (fun n val span => render n val span list_ctx (d + 1))).
    + intros; now apply renderValue_taking_mono.
    + intros; apply Hdeep.
Qed.

Lemma renderObject_total name entries c d :
  (forall v c x, exists fuel r, render fuel v c x (d + 1) = Some r) ->
  exists n r, object (render n) name entries c d = Some r.
Proof.
  intros Hdeep. unfold renderObject.
  destruct (isForeignObject name); [exists O; unfold taking_nothing; eauto|].
  apply if_total.
  - apply createEl_total.
    apply (forEachItem_total _
             (fun n (entry : string * Literal) li =>
                render n (snd entry) (appendText li (fst entry ++ ": ")%string)
                  list_ctx (d + 1))).
    + intros; now apply renderValue_taking_mono.
    + intros; apply Hdeep.
  - destruct entries as [|e0 entries]; [exists O; unfold taking_nothing; eauto|].
    apply createEl_total.
    apply (forEachJoined_total
             (fun n (entry : string * Literal) span =>
                render n (snd entry) (appendText span (fst entry ++ ": ")%string)
                  list_ctx (d + 1))).
    + intros; now apply renderValue_taking_mono.
    + intros; apply Hdeep.
Qed.

Lemma render_total_at (d : Z) :
  well_founded (pairChild heap) ->
  (forall v c x, exists fuel r, render fuel v c x (d + 1) = Some r) ->
  forall v c x, exists fuel r, render fuel v c x d = Some r.
Proof.
  intros Hwf Hdeep.
  assert (Hscal : forall v, (forall a, v <> LRef a) ->
             forall c x, exists fuel r, render fuel v c x d = Some r).
  { intros v Hv c x. exists 1%nat. now apply render_scalar_total. }
  assert (Href : forall a c x, exists fuel r, render fuel (LRef a) c x d = Some r).
  { intros a. induction (Hwf a) as [a _ IH]. intros c x.
    destruct (Z_gt_le_dec d (maxRecursiveRenderDepth settings)) as [Hgt|Hle].
    { exists 1%nat. eexists. now apply render_guard. }
    assert (Hchild : forall v, (forall b, v = LRef b -> pairChild heap b a) ->
               forall c x, exists fuel r, render fuel v c x d = Some r).
    { intros v Hv c' x'. destruct v; try (apply Hscal; discriminate).
      apply IH. now apply Hv. }
    assert (Hstep : (exists n r,
               match heap a with
               | ListPairWidget key value => renderListPair (render n) key value c x d
               | ExternalLinkWidget url display =>
                   Some (appendChild c (externalLinkElement url display),
                         Returned, [])
               | UnknownWidget widget =>
                   Some (appendText c ("<unknown widget '" ++ widget ++ ">")%string,
                         Returned, [])
               | Array elements => sequence (render n) elements c x d
               | DataArray elements => sequence (render n) elements c x d
               | Object name entries => object (render n) name entries c d
               end = Some r)).
    { destruct (heap a) as [k w|url disp|tag|els|els|name entries] eqn:Ea.
      - destruct (Hchild k (fun b E => ex_intro _ k (ex_intro _ w
                   (conj Ea (or_introl E)))) c x) as [n1 [[[c1 o] t1] E1]].
        destruct o as [|e].
        + destruct (Hchild w (fun b E => ex_intro _ k (ex_intro _ w
                     (conj Ea (or_intror E)))) (appendText c1 ": ") x)
            as [n2 [[[c2 o2] t2] E2]].
          exists (Nat.max n1 n2). eexists. unfold renderListPair.
          rewrite (renderValue_taking_mono (Nat.le_max_l n1 n2) _ _ _ _ E1).
          simpl.
          now rewrite (renderValue_taking_mono (Nat.le_max_r n1 n2) _ _ _ _ E2).
        + exists n1. eexists. unfold renderListPair. rewrite E1. reflexivity.
      - exists O. eauto.
      - exists O. eauto.
      - now apply renderSequence_total.
      - now apply renderSequence_total.
      - now apply renderObject_total. }
    destruct Hstep as [n [r E]]. exists (S n), r.
    rewrite (render_ref n a c x Hle). exact E. }
  intros v c x. destruct v; try (apply Hscal; discriminate). apply Href.
Qed.

(** Every call comes back when no list pair is, through keys and values
    alone, nested in itself. *)
Lemma render_total :
  well_founded (pairChild heap) ->
  forall v c x d, exists fuel r, render fuel v c x d = Some r.
Proof.
  intros Hwf.
  assert (Hn : forall n d, maxRecursiveRenderDepth settings < d + Z.of_nat n ->
             forall v c x, exists fuel r, render fuel v c x d = Some r).
  { induction n as [|n IH]; intros d Hd.
    - intros v c x. exists 1%nat. eexists. apply render_guard. lia.
    - apply render_total_at; [exact Hwf|]. apply IH. lia. }
  intros v c x d.
  apply (Hn (Z.to_nat (maxRecursiveRenderDepth settings - d + 1))). lia.
Qed.

End Fixed.
End Facts.

(** ** Independence of what lies below the bound *)

Section Independence.
Context {H : Host}.
Variables heap1 heap2 : Heap.
Variable originFile : string.
Variable component : Component.
Variable settings : QuerySettings.
Variable expandList : bool.

Lemma forEachItem_related (A B : Type) (R : A -> B -> Prop) cls
    (f : A -> Container -> Taking) (g : B -> Container -> Taking) l1 l2 :
  Forall2 R l1 l2 -> (forall x y c, R x y -> f x c = g y c) ->
  forall c, forEachItem cls f l1 c = forEachItem cls g l2 c.
Proof.
  intros HR Hfg. induction HR as [|x y l1 l2 Hxy _ IH]; intros c; simpl.
  - reflexivity.
  - rewrite (createEl_ext "li" cls (f x) (g y) c (fun c' => Hfg x y c' Hxy)).
    now apply andThen_ext.
Qed.

Lemma forEachJoined_related (A B : Type) (R : A -> B -> Prop)
    (f : A -> Container -> Taking) (g : B -> Container -> Taking) l1 l2 :
  Forall2 R l1 l2 -> (forall x y c, R x y -> f x c = g y c) ->
  forall first c, forEachJoined f first l1 c = forEachJoined g first l2 c.
Proof.
  intros HR Hfg. induction HR as [|x y l1 l2 Hxy _ IH]; intros first c; simpl.
  - reflexivity.
  - rewrite (Hfg x y _ Hxy). apply andThen_ext. intros; apply IH.
Qed.

(** Two values that are the same down to the bound are rendered alike,
    whatever lies below the bound in the two heaps. *)
Lemma render_taking_sameUpTo (fuel : nat) :
  forall n d v1 v2 c x,
    maxRecursiveRenderDepth settings < d + Z.of_nat n ->
    sameUpTo heap1 heap2 n v1 v2 ->
    renderValue_taking heap1 originFile component settings expandList
                       fuel v1 c x d =
    renderValue_taking heap2 originFile component settings expandList
                       fuel v2 c x d.
Proof.
  induction fuel as [|fuel IH]; intros n d v1 v2 c x Hn Hsame; [reflexivity|].
  simpl. unfold renderValue_body.
  destruct (d >? maxRecursiveRenderDepth settings) eqn:Hgt; [reflexivity|].
  assert (Hd : d <= maxRecursiveRenderDepth settings).
  { rewrite Z.gtb_ltb in Hgt. now apply Z.ltb_ge in Hgt. }
  destruct Hsame as [v1 v2|n v Hv|n a1 a2 Hobj]; [lia| |].
  - destruct v; try reflexivity. now destruct (Hv a).
  - assert (Hdeep : maxRecursiveRenderDepth settings < d + 1 + Z.of_nat n) by lia.
    destruct Hobj as [n k1 w1 k2 w2 Hk Hw|n url disp|n tag|n l1 l2 Hl|n l1 l2 Hl
                     |n name1 name2 tag e1 e2 Hn1 Hn2
                     |n name1 name2 e1 e2 Hn1 Hn2 He].
    + unfold renderListPair. rewrite (IH _ _ _ _ c x Hn Hk).
      apply andThen_ext. intros c'. now apply (IH (S n)).
    + reflexivity.
    + reflexivity.
    + unfold renderSequence. destruct expandList.
      * apply createEl_ext; intros c'.
        apply (forEachItem_related _ _ _ Hl). intros; now apply (IH n).
      * destruct Hl as [|y1 y2 l1 l2 Hy Hl]; [reflexivity|].
        apply createEl_ext; intros c'.
        apply (forEachJoined_related _ _ (Forall2_cons _ _ Hy Hl)).
        intros; now apply (IH n).
    + unfold renderSequence. destruct expandList.
      * apply createEl_ext; intros c'.
        apply (forEachItem_related _ _ _ Hl). intros; now apply (IH n).
      * destruct Hl as [|y1 y2 l1 l2 Hy Hl]; [reflexivity|].
        apply createEl_ext; intros c'.
        apply (forEachJoined_related _ _ (Forall2_cons _ _ Hy Hl)).
        intros; now apply (IH n).
    + unfold renderObject. now rewrite Hn1, Hn2.
    + unfold renderObject. rewrite Hn1, Hn2. destruct expandList.
      * apply createEl_ext; intros c'.
        apply (forEachItem_related _ _ _ He).
        intros p q li [Hkey Hval]. rewrite Hkey. now apply (IH n).
      * destruct He as [|p q e1 e2 Hpq He]; [reflexivity|].
        apply createEl_ext; intros c'.
        apply (forEachJoined_related _ _ (Forall2_cons _ _ Hpq He)).
        intros p' q' li [Hkey Hval]. rewrite Hkey. now apply (IH n).
Qed.

Lemma render_sameUpTo (fuel : nat) n d v1 v2 c x :
  maxRecursiveRenderDepth settings < d + Z.of_nat n ->
  sameUpTo heap1 heap2 n v1 v2 ->
  renderValue heap1 originFile component settings expandList fuel v1 c x d =
  renderValue heap2 originFile component settings expandList fuel v2 c x d.
Proof.
  intros Hn Hs. unfold renderValue.
  now rewrite (render_taking_sameUpTo fuel d c x Hn Hs).
Qed.

End Independence.

(** ** Calls that only add to their container *)

Section Appending.
Context {H : Host}.
Variable heap : Heap.
Variable originFile : string.
Variable component : Component.
Variable settings : QuerySettings.
Variable expandList : bool.

Local Notation "'render'" :=
  (renderValue_taking heap originFile component settings expandList).
Local Notation "'failsKnown'" := (failsKnown originFile component).

Lemma andThen_added_to p (r : Taking) (k k' : Container -> Taking) :
  (forall q c, k' (q ++ c) = added_to q (k c)) ->
  andThen (added_to p r) k' = added_to p (andThen r k).
Proof.
  intros Hk. destruct r as [[[c [|e]] t]|]; simpl; auto.
  rewrite Hk. destruct (k c) as [[[c' o'] t']|]; simpl; [|reflexivity].
  now rewrite detachAll_taken_app.
Qed.

Lemma createEl_added_to tag cls (b : Container -> Taking) p c :
  createEl tag cls b (p ++ c) = added_to p (createEl tag cls b c).
Proof.
  unfold createEl. destruct (b []) as [[[kids o] t]|]; simpl; [|reflexivity].
  now rewrite detachAll_app, app_assoc.
Qed.

Lemma renderCompactMarkdown_inFront markdown p c :
  component = OtherComponent ->
  renderCompactMarkdown markdown (p ++ c) originFile component =
  (p ++ fst (renderCompactMarkdown markdown c originFile component),
   snd (renderCompactMarkdown markdown c originFile component)).
Proof.
  intros ->. unfold renderCompactMarkdown. simpl.
  destruct (MarkdownRenderer_renderMarkdown markdown [] originFile OtherComponent)
    as [sub [|e]]; simpl; now rewrite app_assoc.
Qed.

(** Outside the live preview a call only adds to its container: what it
    adds does not depend on what the container holds, and what the container
    holds stays, except for the existing elements that the call attaches. *)
Lemma render_added_to (fuel : nat) :
  component = OtherComponent ->
  forall v p c x d,
    render fuel v (p ++ c) x d = added_to p (render fuel v c x d).
Proof.
  intros Hc. induction fuel as [|fuel IH]; intros v p c x d; [reflexivity|].
  simpl. unfold renderValue_body.
  assert (Htext : forall t,
             taking_nothing (appendText (p ++ c) t, Returned) =
             added_to p (taking_nothing (appendText c t, Returned))).
  { intros t. unfold appendText, taking_nothing. simpl.
    now rewrite app_assoc. }
  assert (Hmd : forall m,
             taking_nothing
               (renderCompactMarkdown m (p ++ c) originFile component) =
             added_to p (taking_nothing
                           (renderCompactMarkdown m c originFile component))).
  { intros m. rewrite (renderCompactMarkdown_inFront m p c Hc).
    now destruct (renderCompactMarkdown m c originFile component). }
  destruct (d >? maxRecursiveRenderDepth settings); [apply Htext|].
  destruct v; try apply Hmd; try apply Htext.
  - unfold renderHtml. destruct (contains_container h); [reflexivity|].
    unfold attach. simpl. now rewrite detachFrom_app, app_assoc.
  - destruct (heap a) as [k w|url disp|tag|els|els|name entries].
    + unfold renderListPair. rewrite IH. apply andThen_added_to.
      intros q c'. unfold appendText. rewrite <- app_assoc. apply IH.
    + unfold taking_nothing, appendChild. simpl. now rewrite app_assoc.
    + apply Htext.
    + unfold renderSequence. destruct expandList.
      * apply createEl_added_to.
      * destruct els; [apply Htext | apply createEl_added_to].
    + unfold renderSequence. destruct expandList.
      * apply createEl_added_to.
      * destruct els; [apply Htext | apply createEl_added_to].
    + unfold renderObject. destruct (isForeignObject name); [apply Htext|].
      destruct expandList.
      * apply createEl_added_to.
      * destruct entries; [apply Htext | apply createEl_added_to].
  - unfold renderUnrecognized. destruct (JSON_stringify v); [apply Htext|].
    reflexivity.
Qed.

Lemma render_added_to_empty (fuel : nat) v c x d :
  component = OtherComponent ->
  render fuel v c x d = added_to c (render fuel v [] x d).
Proof.
  intros Hc. rewrite <- (app_nil_r c) at 1. now apply render_added_to.
Qed.

(** *** Where failures come from *)

Lemma renderCompactMarkdown_failure markdown c c' e :
  renderCompactMarkdown markdown c originFile component = (c', Raised e) ->
  snd (MarkdownRenderer_renderMarkdown markdown [] originFile component) = Raised e.
Proof.
  unfold renderCompactMarkdown.
  destruct (instanceof_InlineFieldLivePreviewComponent component);
    destruct (MarkdownRenderer_renderMarkdown markdown [] originFile component)
      as [sub [|e']]; simpl.
  - destruct (querySelector_scope_p sub) as [[[b p] a]|];
      [destruct (length sub =? 1)%nat|]; discriminate.
  - congruence.
  - discriminate.
  - congruence.
Qed.

Lemma andThen_failsKnown (r : Taking) (k : Container -> Taking) :
  failsKnown r -> (forall c, failsKnown (k c)) -> failsKnown (andThen r k).
Proof.
  intros Hr Hk c e t. destruct r as [[[c0 [|e0]] t0]|]; simpl.
  - destruct (k c0) as [[[c1 o1] t1]|] eqn:E; [|discriminate].
    intros E'. injection E' as _ -> _. exact (Hk c0 c1 e t1 E).
  - intros E. injection E as _ <- _. now apply (Hr c0 e0 t0).
  - discriminate.
Qed.

Lemma createEl_failsKnown tag cls (b : Container -> Taking) parent :
  (forall c, failsKnown (b c)) -> failsKnown (createEl tag cls b parent).
Proof.
  intros Hb c e t. unfold createEl.
  destruct (b []) as [[[kids o] t0]|] eqn:E; [|discriminate].
  intros E'. injection E' as _ -> _. exact (Hb [] kids e t0 E).
Qed.

Lemma forEachItem_failsKnown (A : Type) cls (f : A -> Container -> Taking) l :
  (forall x c, failsKnown (f x c)) ->
  forall c, failsKnown (forEachItem cls f l c).
Proof.
  intros Hf. induction l as [|x l IH]; intros c; simpl.
  - intros c' e t; discriminate.
  - apply andThen_failsKnown;
      [apply createEl_failsKnown; intros; apply Hf | exact IH].
Qed.

Lemma forEachJoined_failsKnown (A : Type) (f : A -> Container -> Taking) l :
  (forall x c, failsKnown (f x c)) ->
  forall first c, failsKnown (forEachJoined f first l c).
Proof.
  intros Hf. induction l as [|x l IH]; intros first c; simpl.
  - intros c' e t; discriminate.
  - apply andThen_failsKnown; [apply Hf | intros; apply IH].
Qed.

Lemma render_failsKnown (fuel : nat) :
  forall v c x d, failsKnown (render fuel v c x d).
Proof.
  induction fuel as [|fuel IH]; intros v c x d; [intros c' e t; discriminate|].
  simpl. unfold renderValue_body.
  assert (Hmd : forall m,
             failsKnown (taking_nothing
                           (renderCompactMarkdown m c originFile component))).
  { intros m c' e t E. left. exists m. unfold taking_nothing in E.
    injection E as E _. now apply (renderCompactMarkdown_failure m c E). }
  destruct (d >? maxRecursiveRenderDepth settings);
    [intros c' e t; discriminate|].
  destruct v; try apply Hmd; try (intros c' e t; discriminate).
  - unfold renderHtml. destruct (contains_container h) eqn:Eh;
      intros c' e t E; [|discriminate].
    unfold taking_nothing in E. injection E as _ <- _.
    right. right. split; [reflexivity | now exists h].
  - destruct (heap a) as [k w|url disp|tag|els|els|name entries];
      try (intros c' e t; discriminate).
    + apply andThen_failsKnown; [apply IH | intros; apply IH].
    + unfold renderSequence. destruct expandList.
      * apply createEl_failsKnown; intros; apply forEachItem_failsKnown;
          intros; apply IH.
      * destruct els; [intros c' e t; discriminate|].
        apply createEl_failsKnown; intros; apply forEachJoined_failsKnown;
          intros; apply IH.
    + unfold renderSequence. destruct expandList.
      * apply createEl_failsKnown; intros; apply forEachItem_failsKnown;
          intros; apply IH.
      * destruct els; [intros c' e t; discriminate|].
        apply createEl_failsKnown; intros; apply forEachJoined_failsKnown;
          intros; apply IH.
    + unfold renderObject. destruct (isForeignObject name);
        [intros c' e t; discriminate|].
      destruct expandList.
      * apply createEl_failsKnown; intros; apply forEachItem_failsKnown;
          intros; apply IH.
      * destruct entries; [intros c' e t; discriminate|].
        apply createEl_failsKnown; intros; apply forEachJoined_failsKnown;
          intros; apply IH.
  - unfold renderUnrecognized. destruct (JSON_stringify v) as [dump|e0] eqn:Ev;
      intros c' e t E; [discriminate|].
    unfold taking_nothing in E. injection E as _ <- _.
    right. left. now exists v.
Qed.

End Appending.

(** ** The collapse of a single paragraph *)

Lemma querySelector_scope_p_found (c : Container) before p after :
  querySelector_scope_p c = Some (before, p, after) ->
  c = before ++ p :: after /\ isParagraph p = true.
Proof.
  revert before p after.
  induction c as [|n rest IH]; intros before p after; simpl; [discriminate|].
  destruct (isParagraph n) eqn:En.
  - intros E; injection E as <- <- <-. now split.
  - destruct (querySelector_scope_p rest) as [[[b q] a]|]; [|discriminate].
    intros E; injection E as <- <- <-.
    destruct (IH b q a eq_refl) as [-> Hq]. now split.
Qed.

Lemma isParagraph_isElement (n : Node) : isParagraph n = true -> isElement n = true.
Proof. destruct n; simpl; [discriminate | reflexivity | discriminate]. Qed.

Lemma querySelector_scope_p_only_child (c : Container) (p : Node) :
  onlyChildIsParagraph c p ->
  exists before after,
    querySelector_scope_p c = Some (before, p, after) /\
    c = before ++ p :: after /\ children before = [] /\ children after = [].
Proof.
  unfold onlyChildIsParagraph, children. intros [Hc Hp].
  induction c as [|n rest IH]; simpl in *; [discriminate|].
  destruct (isElement n) eqn:En.
  - injection Hc as -> Hrest. rewrite Hp. exists [], rest. now repeat split.
  - destruct (IH Hc) as [b [a [Hq [-> [Hb Ha]]]]].
    assert (Hn : isParagraph n = false).
    { destruct (isParagraph n) eqn:E; [|reflexivity].
      apply isParagraph_isElement in E. congruence. }
    rewrite Hn, Hq. exists (n :: b), a. simpl. rewrite En. now repeat split.
Qed.

Lemma collapseParagraph_only_child `{Host} (sub : Container) (p : Node) :
  onlyChildIsParagraph sub p ->
  exists before after,
    sub = before ++ p :: after /\ children before = [] /\ children after = [] /\
    collapseParagraph sub = before ++ after ++ nodeChildNodes p.
Proof.
  intros Hp. destruct (querySelector_scope_p_only_child Hp)
    as [before [after [Hq [Hsub [Hb Ha]]]]].
  exists before, after. repeat split; trivial.
  unfold collapseParagraph. rewrite Hq.
  destruct Hp as [Hc _]. rewrite Hc. simpl. now rewrite hoistLoop_app.
Qed.

Lemma collapseParagraph_otherwise `{Host} (sub : Container) :
  (~ exists p, onlyChildIsParagraph sub p) -> collapseParagraph sub = sub.
Proof.
  intros Hno. unfold collapseParagraph.
  destruct (querySelector_scope_p sub) as [[[before p] after]|] eqn:Hq;
    [|reflexivity].
  destruct (length (children sub) =? 1)%nat eqn:Hlen; [|reflexivity].
  exfalso. apply Hno. exists p.
  destruct (querySelector_scope_p_found _ Hq) as [Hsub Hp].
  split; [|exact Hp].
  apply Nat.eqb_eq in Hlen.
  destruct (children sub) as [|q [|q' l]] eqn:Hc; try discriminate.
  assert (Hin : In p (children sub)).
  { unfold children. apply filter_In. split.
    - rewrite Hsub. apply in_or_app. right. now left.
    - now apply isParagraph_isElement. }
  rewrite Hc in Hin. destruct Hin as [->|[]]. reflexivity.
Qed.

(** *** The live preview *)

Lemma livePreview_single_paragraph `{Host} markdown container sourcePath p :
  MarkdownRenderer_renderMarkdown markdown [] sourcePath
    InlineFieldLivePreviewComponent = ([p], Returned) ->
  isParagraph p = true ->
  renderCompactMarkdown markdown container sourcePath
    InlineFieldLivePreviewComponent = (nodeChildNodes p, Returned).
Proof.
  intros Hhost Hp. unfold renderCompactMarkdown. simpl.
  rewrite Hhost. simpl. now rewrite Hp.
Qed.

Lemma livePreview_otherwise `{Host} markdown container sourcePath tmp :
  MarkdownRenderer_renderMarkdown markdown [] sourcePath
    InlineFieldLivePreviewComponent = (tmp, Returned) ->
  (~ exists p, tmp = [p] /\ isParagraph p = true) ->
  renderCompactMarkdown markdown container sourcePath
    InlineFieldLivePreviewComponent = (tmp, Returned).
Proof.
  intros Hhost Hno. unfold renderCompactMarkdown. simpl. rewrite Hhost.
  destruct (querySelector_scope_p tmp) as [[[before p] after]|] eqn:Hq;
    [|reflexivity].
  destruct (length tmp =? 1)%nat eqn:Hlen; [|reflexivity].
  exfalso. apply Hno. exists p.
  destruct (querySelector_scope_p_found _ Hq) as [Htmp Hp].
  split; [|exact Hp].
  apply Nat.eqb_eq in Hlen. rewrite Htmp in Hlen |- *.
  rewrite length_app in Hlen. simpl in Hlen.
  destruct before; [|simpl in Hlen; lia].
  destruct after; [reflexivity | simpl in Hlen; lia].
Qed.

(** ** Series of renders *)

Section Shapes.
Context {H : Host}.

(** The items of a list whose members all render: each item holds what its
    member rendered, without what later members have attached. *)
Lemma forEachItem_settle (A : Type) cls (item : A -> Container -> Taking) l rs :
  Forall2 (fun x r => item x [] = Some (fst r, Returned, snd r)) l rs ->
  forall c,
    forEachItem cls item l c =
    Some (detachAll (takenBy rs) c ++ listItems cls (settle rs), Returned,
          takenBy rs).
Proof.
  induction 1 as [|x [kids t] l rs Hx _ IH]; intros c; simpl.
  - now rewrite app_nil_r.
  - unfold createEl. simpl in Hx. rewrite Hx. simpl. rewrite IH.
    rewrite detachAll_app, detachAll_Element, detachAll_taken_app.
    now rewrite <- app_assoc.
Qed.

(** The same when the render of a member fails: the members after it are
    not rendered. *)
Lemma forEachItem_abort (A : Type) cls (item : A -> Container -> Taking)
    pre rs x kids e t post :
  Forall2 (fun y r => item y [] = Some (fst r, Returned, snd r)) pre rs ->
  item x [] = Some (kids, Raised e, t) ->
  forall c,
    forEachItem cls item (pre ++ x :: post) c =
    Some (detachAll (takenBy (rs ++ [(kids, t)])) c
            ++ listItems cls (settle (rs ++ [(kids, t)])),
          Raised e, takenBy (rs ++ [(kids, t)])).
Proof.
  intros Hpre Hx.
  induction Hpre as [|y [part ty] pre rs Hy _ IH]; intros c; simpl.
  - unfold createEl. rewrite Hx. simpl. now rewrite app_nil_r.
  - unfold createEl. simpl in Hy. rewrite Hy. simpl. rewrite IH.
    rewrite detachAll_app, detachAll_Element, detachAll_taken_app.
    now rewrite <- app_assoc.
Qed.

Lemma forEachItem_always (A : Type) cls (item : A -> Container -> Taking) l :
  (forall x c, exists r, item x c = Some r) ->
  forall c, exists r, forEachItem cls item l c = Some r.
Proof.
  intros Hitem. induction l as [|x l IH]; intros c; simpl; [eauto|].
  unfold createEl.
  destruct (Hitem x []) as [[[kids [|e]] t] E]; rewrite E; simpl; [|eauto].
  destruct (IH (detachAll t c ++ [Element "li" cls [] kids]))
    as [[[c' o'] t'] E'].
  rewrite E'. eauto.
Qed.

Lemma forEachJoined_always (A : Type) (item : A -> Container -> Taking) l :
  (forall x c, exists r, item x c = Some r) ->
  forall first c, exists r, forEachJoined item first l c = Some r.
Proof.
  intros Hitem. induction l as [|x l IH]; intros first c; simpl; [eauto|].
  destruct (Hitem x (if first then c else appendText c ", "))
    as [[[c1 [|e]] t] E]; rewrite E; simpl; [|eauto].
  destruct (IH false c1) as [[[c' o'] t'] E']. rewrite E'. eauto.
Qed.

(** The members of a joined series that all render, outside the live
    preview: each after the separator. *)
Lemma forEachJoined_after_settle (A : Type)
    (item : A -> Container -> Taking) l rs :
  (forall x p c, item x (p ++ c) = added_to p (item x c)) ->
  Forall2 (fun x r => item x [] = Some (fst r, Returned, snd r)) l rs ->
  forall span,
    forEachJoined item false l span =
    Some (detachAll (takenBy rs) span ++ precededBy (Text ", ") (settle rs),
          Returned, takenBy rs).
Proof.
  intros Hframe Hparts.
  induction Hparts as [|x [part t] l rs Hx _ IH]; intros span; simpl.
  - now rewrite app_nil_r.
  - rewrite <- (app_nil_r (appendText span ", ")), Hframe.
    simpl in Hx. rewrite Hx. simpl. rewrite IH.
    unfold appendText.
    rewrite !detachAll_app, !detachAll_Text, detachAll_taken_app.
    now rewrite <- !app_assoc.
Qed.

Lemma forEachJoined_settle (A : Type)
    (item : A -> Container -> Taking) l rs :
  (forall x p c, item x (p ++ c) = added_to p (item x c)) ->
  Forall2 (fun x r => item x [] = Some (fst r, Returned, snd r)) l rs ->
  forEachJoined item true l [] =
  Some (separatedBy (Text ", ") (settle rs), Returned, takenBy rs).
Proof.
  intros Hframe Hparts. destruct Hparts as [|x [part t] l rs Hx Hrest]; simpl.
  - reflexivity.
  - simpl in Hx. rewrite Hx. simpl.
    now rewrite (forEachJoined_after_settle item Hframe Hrest).
Qed.

(** Renders of the members of a list that come back one by one come back
    with a common fuel. *)
Lemma common_fuel_of (A : Type) heap originFile component settings expandList
    (value : A -> Literal) (into : A -> Container)
    (l : list A) (rs : list (Container * list HtmlElement)) x d :
  Forall2 (fun y r =>
             rendersTaking heap originFile component settings expandList
                           (value y) (into y) x d (fst r, Returned) (snd r))
          l rs ->
  exists fuel,
    forall fuel', (fuel <= fuel')%nat ->
    Forall2 (fun y r =>
               renderValue_taking heap originFile component settings expandList
                                  fuel' (value y) (into y) x d
               = Some (fst r, Returned, snd r))
            l rs.
Proof.
  induction 1 as [|y r l rs [n Hy] _ [m IH]].
  - exists O. constructor.
  - exists (Nat.max n m). intros fuel' Hle. constructor.
    + eapply renderValue_taking_mono; [|exact Hy]. lia.
    + apply IH. lia.
Qed.

End Shapes.

(** ** Class lists *)

Lemma detach_strip h :
  forall n, map stripClasses (detach h n) = detach h (stripClasses n).
Proof.
  fix IH 1. intros [s|tag cls attrs kids|h']; simpl.
  - reflexivity.
  - f_equal. f_equal.
    induction kids as [|k kids IHk]; simpl; [reflexivity|].
    now rewrite map_app, IH, IHk.
  - destruct (Nat.eqb h h'); reflexivity.
Qed.

Lemma detachFrom_strip h (c : Container) :
  map stripClasses (detachFrom h c) = detachFrom h (map stripClasses c).
Proof.
  unfold detachFrom. induction c as [|n c IH]; simpl; [reflexivity|].
  now rewrite map_app, detach_strip, IH.
Qed.

Lemma detachAll_strip hs : forall (c : Container),
  map stripClasses (detachAll hs c) = detachAll hs (map stripClasses c).
Proof.
  induction hs as [|h hs IH]; intros c; simpl; [reflexivity|].
  now rewrite IH, detachFrom_strip.
Qed.

Lemma sameClassless_app c1 c2 d1 d2 :
  sameClassless c1 c2 -> sameClassless d1 d2 ->
  sameClassless (c1 ++ d1) (c2 ++ d2).
Proof. unfold sameClassless. intros E1 E2. now rewrite !map_app, E1, E2. Qed.

Lemma sameClassless_detachAll hs c1 c2 :
  sameClassless c1 c2 -> sameClassless (detachAll hs c1) (detachAll hs c2).
Proof. unfold sameClassless. intros E. now rewrite !detachAll_strip, E. Qed.

Section Classes.
Context {H : Host}.

Lemma sameModuloClasses_andThen (r1 r2 : Taking) (k1 k2 : Container -> Taking) :
  sameTakingModuloClasses r1 r2 ->
  (forall c1 c2, sameClassless c1 c2 -> sameTakingModuloClasses (k1 c1) (k2 c2)) ->
  sameTakingModuloClasses (andThen r1 k1) (andThen r2 k2).
Proof.
  intros Hr Hk.
  destruct r1 as [[[c1 [|e1]] t1]|], r2 as [[[c2 [|e2]] t2]|]; simpl in *;
    try contradiction; try (exfalso; decompose [and] Hr; discriminate).
  - destruct Hr as [Hc [_ ->]]. specialize (Hk c1 c2 Hc).
    destruct (k1 c1) as [[[d1 o1] u1]|], (k2 c2) as [[[d2 o2] u2]|];
      simpl in *; try contradiction; [|exact I].
    destruct Hk as [Hd [-> ->]]. now repeat split.
  - exact Hr.
  - exact I.
Qed.

Lemma sameModuloClasses_createEl tag cls1 cls2
    (b1 b2 : Container -> Taking) p1 p2 :
  sameTakingModuloClasses (b1 []) (b2 []) -> sameClassless p1 p2 ->
  sameTakingModuloClasses (createEl tag cls1 b1 p1) (createEl tag cls2 b2 p2).
Proof.
  intros Hb Hp. unfold createEl.
  destruct (b1 []) as [[[k1 o1] t1]|], (b2 []) as [[[k2 o2] t2]|]; simpl in *;
    try contradiction; [|exact I].
  destruct Hb as [Hk [-> ->]]. split; [|now split].
  apply sameClassless_app; [now apply sameClassless_detachAll|].
  unfold sameClassless. simpl. now rewrite Hk.
Qed.

Lemma sameModuloClasses_forEachItem (A : Type) cls
    (f g : A -> Container -> Taking) l :
  (forall x c1 c2, sameClassless c1 c2 ->
                   sameTakingModuloClasses (f x c1) (g x c2)) ->
  forall c1 c2, sameClassless c1 c2 ->
    sameTakingModuloClasses (forEachItem cls f l c1) (forEachItem cls g l c2).
Proof.
  intros Hfg. induction l as [|x l IH]; intros c1 c2 Hc; simpl.
  - now repeat split.
  - apply sameModuloClasses_andThen; [|exact IH].
    apply sameModuloClasses_createEl; [apply Hfg; reflexivity | exact Hc].
Qed.

Lemma sameModuloClasses_forEachJoined (A : Type)
    (f g : A -> Container -> Taking) l :
  (forall x c1 c2, sameClassless c1 c2 ->
                   sameTakingModuloClasses (f x c1) (g x c2)) ->
  forall first c1 c2, sameClassless c1 c2 ->
    sameTakingModuloClasses (forEachJoined f first l c1)
                            (forEachJoined g first l c2).
Proof.
  intros Hfg. induction l as [|x l IH]; intros first c1 c2 Hc; simpl.
  - now repeat split.
  - apply sameModuloClasses_andThen; [|intros; now apply IH].
    apply Hfg. destruct first; [exact Hc|].
    apply sameClassless_app; [exact Hc | reflexivity].
Qed.

Lemma sameModuloClasses_markdown markdown c1 c2 originFile component :
  sameClassless c1 c2 ->
  sameTakingModuloClasses
    (taking_nothing (renderCompactMarkdown markdown c1 originFile component))
    (taking_nothing (renderCompactMarkdown markdown c2 originFile component)).
Proof.
  intros Hc. unfold renderCompactMarkdown, taking_nothing.
  destruct (instanceof_InlineFieldLivePreviewComponent component);
    destruct (MarkdownRenderer_renderMarkdown markdown [] originFile component)
      as [sub [|e]]; simpl.
  - destruct (querySelector_scope_p sub) as [[[b p] a]|];
      [destruct (length sub =? 1)%nat|]; now repeat split.
  - now repeat split.
  - split; [|now split]. apply sameClassless_app; [exact Hc | reflexivity].
  - split; [|now split]. apply sameClassless_app; [exact Hc | reflexivity].
Qed.

(** The context of a call, and the class lists in its container, change
    class lists in the result and nothing else. *)
Lemma render_sameModuloClasses heap originFile component settings expandList
    (fuel : nat) :
  forall v c1 c2 x1 x2 d,
    sameClassless c1 c2 ->
    sameTakingModuloClasses
      (renderValue_taking heap originFile component settings expandList
                          fuel v c1 x1 d)
      (renderValue_taking heap originFile component settings expandList
                          fuel v c2 x2 d).
Proof.
  induction fuel as [|fuel IH]; intros v c1 c2 x1 x2 d Hc; [exact I|].
  simpl. unfold renderValue_body.
  assert (Htext : forall t,
             sameTakingModuloClasses
               (taking_nothing (appendText c1 t, Returned))
               (taking_nothing (appendText c2 t, Returned))).
  { intros t. split; [|now split].
    apply sameClassless_app; [exact Hc | reflexivity]. }
  assert (Hnode : forall n,
             sameTakingModuloClasses
               (taking_nothing (appendChild c1 n, Returned))
               (taking_nothing (appendChild c2 n, Returned))).
  { intros n. split; [|now split].
    apply sameClassless_app; [exact Hc | reflexivity]. }
  destruct (d >? maxRecursiveRenderDepth settings); [apply Htext|].
  destruct v; try (now apply sameModuloClasses_markdown);
    try apply Htext; try apply Hnode.
  - unfold renderHtml. destruct (contains_container h).
    + split; [exact Hc | now split].
    + split; [|now split]. unfold attach.
      apply sameClassless_app; [|reflexivity].
      exact (sameClassless_detachAll [h] Hc).
  - destruct (heap a) as [k w|url disp|tag|els|els|name entries];
      try apply Htext; try apply Hnode.
    + unfold renderListPair. apply sameModuloClasses_andThen; [now apply IH|].
      intros d1 d2 Hd. apply IH.
      apply sameClassless_app; [exact Hd | reflexivity].
    + unfold renderSequence. destruct expandList.
      * apply sameModuloClasses_createEl; [|exact Hc].
        apply sameModuloClasses_forEachItem; [|reflexivity].
        intros; now apply IH.
      * destruct els; [apply Htext|].
        apply sameModuloClasses_createEl; [|exact Hc].
        apply sameModuloClasses_forEachJoined; [|reflexivity].
        intros; now apply IH.
    + unfold renderSequence. destruct expandList.
      * apply sameModuloClasses_createEl; [|exact Hc].
        apply sameModuloClasses_forEachItem; [|reflexivity].
        intros; now apply IH.
      * destruct els; [apply Htext|].
        apply sameModuloClasses_createEl; [|exact Hc].
        apply sameModuloClasses_forEachJoined; [|reflexivity].
        intros; now apply IH.
    + unfold renderObject. destruct (isForeignObject name); [apply Htext|].
      destruct expandList.
      * apply sameModuloClasses_createEl; [|exact Hc].
        apply sameModuloClasses_forEachItem; [|reflexivity].
        intros x d1 d2 Hd. apply IH.
        apply sameClassless_app; [exact Hd | reflexivity].
      * destruct entries; [apply Htext|].
        apply sameModuloClasses_createEl; [|exact Hc].
        apply sameModuloClasses_forEachJoined; [|reflexivity].
        intros x d1 d2 Hd. apply IH.
        apply sameClassless_app; [exact Hd | reflexivity].
  - unfold renderUnrecognized. destruct (JSON_stringify v); [apply Htext|].
    split; [exact Hc | now split].
Qed.

Lemma sameModuloClasses_forgetTaken (r1 r2 : Taking) :
  sameTakingModuloClasses r1 r2 ->
  sameModuloClasses (forgetTaken r1) (forgetTaken r2).
Proof.
  destruct r1 as [[[c1 o1] t1]|], r2 as [[[c2 o2] t2]|]; simpl; trivial.
  intros [Hc [Ho _]]. now split.
Qed.

(** In compact mode the context of a call changes nothing at all. *)
Lemma render_compact_context heap originFile component settings (fuel : nat) :
  forall v c x1 x2 d,
    renderValue_taking heap originFile component settings false fuel v c x1 d =
    renderValue_taking heap originFile component settings false fuel v c x2 d.
Proof.
  induction fuel as [|fuel IH]; intros v c x1 x2 d; [reflexivity|].
  simpl. unfold renderValue_body.
  destruct (d >? maxRecursiveRenderDepth settings); [reflexivity|].
  destruct v; try reflexivity.
  destruct (heap a) as [k w|url disp|tag|els|els|name entries]; try reflexivity.
  unfold renderListPair. rewrite (IH k c x1 x2 d).
  apply andThen_ext. intros c'. apply IH.
Qed.

End Classes.

(** ** Outcomes *)

Section Outcomes.
Context {H : Host}.

Lemma sameOutcome_andThen (r1 r2 : Taking) (k1 k2 : Container -> Taking) :
  sameOutcome r1 r2 ->
  (forall c1 c2, sameOutcome (k1 c1) (k2 c2)) ->
  sameOutcome (andThen r1 k1) (andThen r2 k2).
Proof.
  intros Hr Hk.
  destruct r1 as [[[c1 [|e1]] t1]|], r2 as [[[c2 [|e2]] t2]|]; simpl in *;
    try contradiction; try (exfalso; decompose [and] Hr; discriminate);
    trivial.
  destruct Hr as [_ ->]. specialize (Hk c1 c2).
  destruct (k1 c1) as [[[d1 o1] u1]|], (k2 c2) as [[[d2 o2] u2]|];
    simpl in *; try contradiction; [|exact I].
  destruct Hk as [-> ->]. now split.
Qed.

Lemma sameOutcome_createEl tag1 tag2 cls1 cls2
    (b1 b2 : Container -> Taking) p1 p2 :
  sameOutcome (b1 []) (b2 []) ->
  sameOutcome (createEl tag1 cls1 b1 p1) (createEl tag2 cls2 b2 p2).
Proof.
  unfold createEl.
  now destruct (b1 []) as [[[k1 o1] t1]|], (b2 []) as [[[k2 o2] t2]|].
Qed.

Lemma sameOutcome_forEachItem (A : Type) cls
    (f g : A -> Container -> Taking) l :
  (forall x c1 c2, sameOutcome (f x c1) (g x c2)) ->
  forall c1 c2,
    sameOutcome (forEachItem cls f l c1) (forEachItem cls g l c2).
Proof.
  intros Hfg. induction l as [|x l IH]; intros c1 c2; simpl; [now split|].
  apply sameOutcome_andThen; [|exact IH].
  apply sameOutcome_createEl, Hfg.
Qed.

Lemma sameOutcome_forEachJoined (A : Type)
    (f g : A -> Container -> Taking) l :
  (forall x c1 c2, sameOutcome (f x c1) (g x c2)) ->
  forall first1 first2 c1 c2,
    sameOutcome (forEachJoined f first1 l c1) (forEachJoined g first2 l c2).
Proof.
  intros Hfg. induction l as [|x l IH]; intros first1 first2 c1 c2; simpl;
    [now split|].
  apply sameOutcome_andThen; [apply Hfg | intros; apply IH].
Qed.

Lemma sameOutcome_markdown markdown c1 c2 originFile component :
  sameOutcome
    (taking_nothing (renderCompactMarkdown markdown c1 originFile component))
    (taking_nothing (renderCompactMarkdown markdown c2 originFile component)).
Proof.
  unfold renderCompactMarkdown, taking_nothing.
  destruct (instanceof_InlineFieldLivePreviewComponent component);
    destruct (MarkdownRenderer_renderMarkdown markdown [] originFile component)
      as [sub [|e]]; simpl; try (now split).
  destruct (querySelector_scope_p sub) as [[[b p] a]|];
    [destruct (length sub =? 1)%nat|]; now split.
Qed.

(** Whether a call returns, fails or does not come back, and which existing
    elements it attaches, does not depend on what its container holds. *)
Lemma render_sameOutcome heap originFile component settings expandList
    (fuel : nat) :
  forall v c1 c2 x d,
    sameOutcome
      (renderValue_taking heap originFile component settings expandList
                          fuel v c1 x d)
      (renderValue_taking heap originFile component settings expandList
                          fuel v c2 x d).
Proof.
  induction fuel as [|fuel IH]; intros v c1 c2 x d; [exact I|].
  simpl. unfold renderValue_body.
  destruct (d >? maxRecursiveRenderDepth settings); [now split|].
  destruct v; try apply sameOutcome_markdown; try (now split).
  - unfold renderHtml. destruct (contains_container h); now split.
  - destruct (heap a) as [k w|url disp|tag|els|els|name entries];
      try (now split).
    + unfold renderListPair. apply sameOutcome_andThen; [apply IH|].
      intros; apply IH.
    + unfold renderSequence. destruct expandList.
      * apply sameOutcome_createEl, sameOutcome_forEachItem. intros; apply IH.
      * destruct els; [now split|].
        apply sameOutcome_createEl, sameOutcome_forEachJoined. intros; apply IH.
    + unfold renderSequence. destruct expandList.
      * apply sameOutcome_createEl, sameOutcome_forEachItem. intros; apply IH.
      * destruct els; [now split|].
        apply sameOutcome_createEl, sameOutcome_forEachJoined. intros; apply IH.
    + unfold renderObject. destruct (isForeignObject name); [now split|].
      destruct expandList.
      * apply sameOutcome_createEl, sameOutcome_forEachItem. intros; apply IH.
      * destruct entries; [now split|].
        apply sameOutcome_createEl, sameOutcome_forEachJoined. intros; apply IH.
  - unfold renderUnrecognized. destruct (JSON_stringify v); now split.
Qed.

Lemma render_returns_anywhere heap originFile component settings expandList
    fuel v c1 c2 x d part taken :
  renderValue_taking heap originFile component settings expandList
                     fuel v c1 x d = Some (part, Returned, taken) ->
  exists part',
    renderValue_taking heap originFile component settings expandList
                       fuel v c2 x d = Some (part', Returned, taken).
Proof.
  intros E.
  pose proof (render_sameOutcome heap originFile component settings expandList
                fuel v c1 c2 x d) as Hs.
  rewrite E in Hs.
  destruct (renderValue_taking heap originFile component settings expandList
              fuel v c2 x d) as [[[part' o] t]|]; simpl in Hs; [|contradiction].
  destruct Hs as [<- <-]. now exists part'.
Qed.

(** Below the bound and in the live preview, what a markdown-rendered value
    leaves in its container does not depend on what the container held. *)
Lemma livePreview_value_replaces heap originFile settings expandList
    fuel v c1 c2 x d content taken :
  d <= maxRecursiveRenderDepth settings ->
  isMarkdownRendered v = true ->
  renderValue_taking heap originFile InlineFieldLivePreviewComponent settings
                     expandList fuel v c1 x d
    = Some (content, Returned, taken) ->
  renderValue_taking heap originFile InlineFieldLivePreviewComponent settings
                     expandList fuel v c2 x d
    = Some (content, Returned, []).
Proof.
  intros Hd Hv. destruct fuel as [|fuel]; [discriminate|].
  simpl. unfold renderValue_body. rewrite (guard_passed _ Hd).
  assert (Hmd : forall m,
             taking_nothing
               (renderCompactMarkdown m c1 originFile
                  InlineFieldLivePreviewComponent)
             = Some (content, Returned, taken) ->
             taking_nothing
               (renderCompactMarkdown m c2 originFile
                  InlineFieldLivePreviewComponent)
             = Some (content, Returned, [])).
  { intros m. unfold renderCompactMarkdown, taking_nothing. simpl.
    destruct (MarkdownRenderer_renderMarkdown m [] originFile
                InlineFieldLivePreviewComponent) as [sub [|e]];
      [|discriminate].
    destruct (querySelector_scope_p sub) as [[[b p] a]|];
      [destruct (length sub =? 1)%nat|];
      intros E; injection E as <- _; reflexivity. }
  destruct v; try discriminate Hv; apply Hmd.
Qed.

Lemma forEachJoined_last (A : Type) (item : A -> Container -> Taking)
    before (rs : list (Container * list HtmlElement)) last content :
  Forall2 (fun x r => forall c, exists c',
                        item x c = Some (c', Returned, snd r)) before rs ->
  (forall c, item last c = Some (content, Returned, [])) ->
  forall first span,
    forEachJoined item first (before ++ [last]) span
    = Some (content, Returned, takenBy rs).
Proof.
  intros Hbefore Hlast.
  induction Hbefore as [|x r before rs Hx _ IH]; intros first span; simpl.
  - now rewrite Hlast.
  - destruct (Hx (if first then span else appendText span ", ")) as [c' E].
    rewrite E. simpl. now rewrite IH.
Qed.

Lemma returning_fuel heap originFile component settings expandList
    (l : list Literal) (rs : list (Container * list HtmlElement)) x d :
  Forall2 (fun v r =>
             rendersTaking heap originFile component settings expandList
                           v [] x d (fst r, Returned) (snd r)) l rs ->
  exists fuel,
    forall fuel', (fuel <= fuel')%nat ->
    Forall2 (fun v r => forall c, exists c',
               renderValue_taking heap originFile component settings expandList
                                  fuel' v c x d = Some (c', Returned, snd r))
            l rs.
Proof.
  induction 1 as [|v r l rs [n Hv] _ [m IH]].
  - exists O. constructor.
  - exists (Nat.max n m). intros fuel' Hle. constructor.
    + intros c. eapply render_returns_anywhere.
      eapply renderValue_taking_mono; [|exact Hv]. lia.
    + apply IH. lia.
Qed.

End Outcomes.

(** ** Facts about the example heaps *)

Lemma selfPairHeap_never_returns (fuel : nat) :
  forall c,
    renderValue_taking selfPairHeap "note.md" OtherComponent demoSettings false
                       fuel (LRef 0%nat) c root 0 = None.
Proof.
  induction fuel as [|fuel IH]; intros c; [reflexivity|].
  simpl. unfold renderValue_body. simpl. unfold renderListPair.
  now rewrite IH.
Qed.

Lemma demoHeap_pairs_well_founded : well_founded (pairChild demoHeap).
Proof.
  intros a. constructor. intros b [key [value [Ha Hb]]].
  destruct a as [|[|[|[|[|[|[|[|[|[|a]]]]]]]]]]; simpl in Ha;
    try discriminate Ha.
  injection Ha as <- <-. destruct Hb as [Hb|Hb]; discriminate Hb.
Qed.

Lemma demoHeap_flatPairs : flatPairs demoHeap.
Proof.
  intros a key value b Ha Hb.
  destruct a as [|[|[|[|[|[|[|[|[|[|a]]]]]]]]]]; simpl in Ha;
    try discriminate Ha.
  injection Ha as <- <-. destruct Hb as [Hb|Hb]; discriminate Hb.
Qed.

Lemma quietHeap_pairs_well_founded : well_founded (pairChild quietHeap).
Proof.
  intros a. constructor. intros b [key [value [Ha _]]]. discriminate Ha.
Qed.

Lemma append_empty_r (s : string) : (s ++ "")%string = s.
Proof. induction s as [|ch s IH]; simpl; [reflexivity | now rewrite IH]. Qed.

Lemma textContent_setTextContent tag cls attrs (text : string) :
  textContent (Element tag cls attrs (setTextContent text)) = text.
Proof.
  unfold setTextContent. destruct (String.eqb text "") eqn:E; simpl.
  - apply String.eqb_eq in E. now subst.
  - apply append_empty_r.
Qed.

Lemma returnsAtOnce_renderValue `{Host} heap originFile component settings
    expandList field container context depth r :
  returnsAtOnce heap originFile component settings expandList
                field container context depth r ->
  forall fuel,
    renderValue heap originFile component settings expandList
                (S fuel) field container context depth = Some r.
Proof.
  intros Hr fuel. unfold renderValue. simpl. rewrite Hr. now destruct r.
Qed.

Lemma renderValue_ref `{Host} heap originFile component settings expandList
    fuel a c x d :
  d <= maxRecursiveRenderDepth settings ->
  renderValue heap originFile component settings expandList
              (S fuel) (LRef a) c x d =
  forgetTaken
    match heap a with
    | ListPairWidget key value =>
        renderListPair
          (renderValue_taking heap originFile component settings expandList fuel)
          key value c x d
    | ExternalLinkWidget url display =>
        Some (appendChild c (externalLinkElement url display), Returned, [])
    | UnknownWidget widget =>
        Some (appendText c ("<unknown widget '" ++ widget ++ ">")%string,
              Returned, [])
    | Array elements =>
        renderSequence expandList
          (renderValue_taking heap originFile component settings expandList fuel)
          elements c x d
    | DataArray elements =>
        renderSequence expandList
          (renderValue_taking heap originFile component settings expandList fuel)
          elements c x d
    | Object name entries =>
        renderObject expandList
          (renderValue_taking heap originFile component settings expandList fuel)
          name entries c d
    end.
Proof.
  intros Hd. unfold renderValue. now rewrite render_ref.
Qed.

(** ** The properties of the renderer *)

Section Claims.
Context {H : Host}.
Variable heap : Heap.
Variable originFile : string.
Variable component : Component.
Variable settings : QuerySettings.

Local Notation "'render'" := (renderValue heap originFile component settings).
Local Notation "'rendersTo'" := (renders heap originFile component settings).
Local Notation "'atOnce'" := (returnsAtOnce heap originFile component settings).

(** C2.  Below the bound, an object whose constructor has a name (a
    non-empty one) other than ["Object"] is rendered, in compact and in
    expanded mode alike, as the text [<name>], without a recursive call and
    whatever its fields and the heap hold. *)
Theorem renderValue_foreign_object
    expandList a name entries container context depth :
  depth <= maxRecursiveRenderDepth settings ->
  heap a = Object (Some name) entries ->
  name <> "" -> name <> "Object" ->
  atOnce expandList (LRef a) container context depth
         (appendText container ("<" ++ name ++ ">")%string, Returned)
  /\ forall fuel,
      render expandList (S fuel) (LRef a) container context depth =
      Some (appendText container ("<" ++ name ++ ">")%string, Returned).
Proof.
  intros Hd Ha Hne Hno.
  assert (Hat : atOnce expandList (LRef a) container context depth
                  (appendText container ("<" ++ name ++ ">")%string, Returned)).
  { intros self. unfold renderValue_body.
    rewrite (guard_passed _ Hd), Ha. unfold renderObject, isForeignObject.
    apply String.eqb_neq in Hne, Hno. now rewrite Hne, Hno. }
  split; [exact Hat | now apply returnsAtOnce_renderValue].
Qed.

(** C4.  The null value is rendered exactly as the string [renderNullAs]:
    at every depth the two calls have the same result, and below the bound
    both are the call of [renderCompactMarkdown] on that text. *)
Theorem renderValue_null_as_string expandList fuel container context depth :
  render expandList fuel LNull container context depth =
  render expandList fuel (LString (renderNullAs settings)) container context depth
  /\ (depth <= maxRecursiveRenderDepth settings ->
      render expandList (S fuel) LNull container context depth =
      Some (renderCompactMarkdown (renderNullAs settings)
                                  container originFile component)
      /\ render expandList (S fuel) (LString (renderNullAs settings))
                container context depth =
         Some (renderCompactMarkdown (renderNullAs settings)
                                     container originFile component)).
Proof.
  split.
  - destruct fuel as [|fuel]; [reflexivity|].
    unfold renderValue. simpl. unfold renderValue_body.
    now destruct (depth >? maxRecursiveRenderDepth settings).
  - intros Hd. unfold renderValue. simpl. unfold renderValue_body.
    rewrite (guard_passed _ Hd). unfold taking_nothing. simpl.
    now destruct (renderCompactMarkdown (renderNullAs settings)
                    container originFile component).
Qed.

(** C5.  Below the bound, a list pair is rendered as its key, then the text
    [": "], then its value, the two recursive calls being made in the context
    and at the depth of the call on the pair. *)
Theorem renderValue_list_pair expandList a key value container context depth r :
  depth <= maxRecursiveRenderDepth settings ->
  heap a = ListPairWidget key value ->
  rendersTo expandList (LRef a) container context depth r <->
  keyColonValue (fun v c res => rendersTo expandList v c context depth res)
                key value container r.
Proof.
  intros Hd Ha. split.
  - intros [fuel E]. destruct fuel as [|fuel]; [discriminate|].
    rewrite (renderValue_ref _ _ _ _ _ fuel a container context Hd), Ha in E.
    unfold renderListPair in E.
    destruct (renderValue_taking heap originFile component settings expandList
                fuel key container context depth)
      as [[[c1 [|e]] t1]|] eqn:Ek; simpl in E; [| |discriminate].
    + left. exists c1. split.
      * exists fuel. unfold renderValue. now rewrite Ek.
      * exists fuel. unfold renderValue.
        destruct (renderValue_taking heap originFile component settings
                    expandList fuel value (appendText c1 ": ") context depth)
          as [[[c2 o2] t2]|]; [exact E | discriminate].
    + right. exists c1, e. split.
      * exists fuel. unfold renderValue. now rewrite Ek.
      * congruence.
  - intros [[c1 [Hk Hv]]|[c1 [e [Hk ->]]]].
    + destruct (renders_rendersTaking Hk) as [t1 [n Hn]].
      destruct (renders_rendersTaking Hv) as [t2 [m Hm]].
      exists (S (Nat.max n m)).
      rewrite (renderValue_ref _ _ _ _ _ _ a container context Hd), Ha.
      unfold renderListPair.
      assert (Hn' : renderValue_taking heap originFile component settings
                      expandList (Nat.max n m) key container context depth
                    = Some (c1, Returned, t1))
        by (eapply renderValue_taking_mono; [apply Nat.le_max_l | exact Hn]).
      assert (Hm' : renderValue_taking heap originFile component settings
                      expandList (Nat.max n m) value (appendText c1 ": ")
                      context depth
                    = Some (r, t2))
        by (eapply renderValue_taking_mono; [apply Nat.le_max_r | exact Hm]).
      rewrite Hn'. simpl. rewrite Hm'. now destruct r.
    + destruct (renders_rendersTaking Hk) as [t1 [n Hn]].
      exists (S n).
      rewrite (renderValue_ref _ _ _ _ _ _ a container context Hd), Ha.
      unfold renderListPair. now rewrite Hn.
Qed.

(** C6.  Below the bound, an external-link widget is rendered by appending
    one [a] element with [rel="noopener"], [target="_blank"], the class
    [external-link], [href] equal to the url, and as its text the display
    text when there is one and the url otherwise. *)
Theorem renderValue_external_link
    expandList a url display container context depth :
  depth <= maxRecursiveRenderDepth settings ->
  heap a = ExternalLinkWidget url display ->
  exists classes attrs kids,
    let elem := Element "a" classes attrs kids in
    atOnce expandList (LRef a) container context depth
           (container ++ [elem], Returned)
    /\ getAttribute "rel" elem = Some "noopener"
    /\ getAttribute "target" elem = Some "_blank"
    /\ hasClass "external-link" elem
    /\ getAttribute "href" elem = Some url
    /\ textContent elem = match display with Some d => d | None => url end.
Proof.
  intros Hd Ha.
  exists ["external-link"],
         [("rel", "noopener"); ("target", "_blank"); ("href", url)],
         (setTextContent (match display with Some d => d | None => url end)).
  cbv zeta. repeat split.
  - intros self. unfold renderValue_body. now rewrite (guard_passed _ Hd), Ha.
  - simpl. now left.
  - apply textContent_setTextContent.
Qed.

(** C7 (as amended).  Below the bound and in compact mode, an empty sequence
    is rendered as the text ["<empty list>"], and an empty object whose
    constructor name is missing, empty or ["Object"] as the text
    ["<empty object>"]; nothing else is done: no grouping node, no recursive
    call.  An empty object with another constructor name is rendered as that
    name between angle brackets. *)
Theorem renderValue_compact_empty a container context depth :
  depth <= maxRecursiveRenderDepth settings ->
  (heap a = Array [] \/ heap a = DataArray [] ->
   atOnce false (LRef a) container context depth
          (container ++ [Text "<empty list>"], Returned))
  /\ (forall name,
         heap a = Object name [] -> isForeignObject name = None ->
         atOnce false (LRef a) container context depth
                (container ++ [Text "<empty object>"], Returned))
  /\ (forall name tag,
         heap a = Object name [] -> isForeignObject name = Some tag ->
         atOnce false (LRef a) container context depth
                (container ++ [Text ("<" ++ tag ++ ">")%string], Returned)).
Proof.
  intros Hd. split; [|split].
  - intros Ha self. unfold renderValue_body. rewrite (guard_passed _ Hd).
    destruct Ha as [Ha|Ha]; now rewrite Ha.
  - intros name Ha Hn self. unfold renderValue_body.
    rewrite (guard_passed _ Hd), Ha. unfold renderObject. now rewrite Hn.
  - intros name tag Ha Hn self. unfold renderValue_body.
    rewrite (guard_passed _ Hd), Ha. unfold renderObject. now rewrite Hn.
Qed.

(** C8.  With a component other than the inline-field live preview,
    [renderCompactMarkdown] appends one new [span] to the container and has
    the host render into it.  When the span then has exactly one child
    element and that element is a paragraph, the child nodes of the paragraph
    become children of the span and the paragraph is removed; the span stays
    in the container.  Otherwise the content of the span is what the host
    produced. *)
Theorem renderCompactMarkdown_generic_surface
    markdown container sourcePath sub :
  MarkdownRenderer_renderMarkdown markdown [] sourcePath OtherComponent
    = (sub, Returned) ->
  exists sub',
    renderCompactMarkdown markdown container sourcePath OtherComponent
      = (container ++ [Element "span" [] [] sub'], Returned)
    /\ (forall p, onlyChildIsParagraph sub p ->
         exists before after,
           sub = before ++ p :: after
           /\ children before = [] /\ children after = []
           /\ sub' = before ++ after ++ nodeChildNodes p)
    /\ (forall p, sub = [p] -> isParagraph p = true -> sub' = nodeChildNodes p)
    /\ ((~ exists p, onlyChildIsParagraph sub p) -> sub' = sub).
Proof.
  intros Hhost. exists (collapseParagraph sub). repeat split.
  - unfold renderCompactMarkdown. simpl. now rewrite Hhost.
  - intros p Hp. apply (collapseParagraph_only_child Hp).
  - intros p -> Hp. unfold collapseParagraph. simpl. rewrite Hp.
    unfold children. simpl. rewrite (isParagraph_isElement _ Hp). simpl.
    now rewrite hoistLoop_app.
  - apply collapseParagraph_otherwise.
Qed.

(** C10.  Below the bound and in expanded mode, an empty sequence and an
    empty object (one that is not foreign) are rendered as one [ul] element
    without children; and whatever the elements or entries are, what expanded
    mode appends is a [ul] element, never the text of a placeholder: the
    container ends with the [ul], before which it holds what it held, less
    the existing elements that the call has attached inside the [ul] (none
    of which there is when the sequence or object holds no html element). *)
Theorem renderValue_expanded_empty a container context depth :
  depth <= maxRecursiveRenderDepth settings ->
  (heap a = Array [] \/ heap a = DataArray [] ->
   atOnce true (LRef a) container context depth
          (container ++ [Element "ul" (list_ul_classes context) [] []], Returned))
  /\ (forall name,
         heap a = Object name [] -> isForeignObject name = None ->
         atOnce true (LRef a) container context depth
                (container ++
                   [Element "ul"
                      ["dataview"; "dataview-ul"; "dataview-result-object-ul"]
                      [] []],
                 Returned))
  /\ (forall fuel elements c o taken,
         heap a = Array elements \/ heap a = DataArray elements ->
         renderValue_taking heap originFile component settings true
                            fuel (LRef a) container context depth
           = Some (c, o, taken) ->
         exists items,
           c = detachAll taken container
                 ++ [Element "ul" (list_ul_classes context) [] items])
  /\ (forall fuel name entries c o taken,
         heap a = Object name entries -> isForeignObject name = None ->
         renderValue_taking heap originFile component settings true
                            fuel (LRef a) container context depth
           = Some (c, o, taken) ->
         exists items,
           c = detachAll taken container ++
                 [Element "ul"
                    ["dataview"; "dataview-ul"; "dataview-result-object-ul"]
                    [] items]).
Proof.
  intros Hd. repeat split.
  - intros Ha self. unfold renderValue_body. rewrite (guard_passed _ Hd).
    destruct Ha as [Ha|Ha]; now rewrite Ha.
  - intros name Ha Hn self. unfold renderValue_body.
    rewrite (guard_passed _ Hd), Ha. unfold renderObject. now rewrite Hn.
  - intros fuel elements c o taken Ha E.
    destruct fuel as [|fuel]; [discriminate|].
    rewrite (render_ref _ _ _ _ _ fuel a container context Hd) in E.
    assert (E' : renderSequence true
                   (renderValue_taking heap originFile component settings
                                       true fuel)
                   elements container context depth = Some (c, o, taken))
      by (destruct Ha as [Ha|Ha]; now rewrite Ha in E).
    unfold renderSequence, createEl in E'.
    destruct (forEachItem _ _ elements []) as [[[kids o'] t]|]; [|discriminate].
    injection E' as <- _ <-. now exists kids.
  - intros fuel name entries c o taken Ha Hn E.
    destruct fuel as [|fuel]; [discriminate|].
    rewrite (render_ref _ _ _ _ _ fuel a container context Hd), Ha in E.
    unfold renderObject, createEl in E. rewrite Hn in E.
    destruct (forEachItem _ _ entries []) as [[[kids o'] t]|]; [|discriminate].
    injection E as <- _ <-. now exists kids.
Qed.

End Claims.

(** ** The properties at concrete inputs *)

Section Examples.
#[local] Existing Instance demoHost.

(** C1.  With the bound at 2, the list pair whose key is the pair itself,
    [w = listPair(1, 2); w.key = w], is rendered at depth 0 by a call that
    starts the same call again at the same depth: the depth never grows, the
    guard never applies, and the nesting of the calls is unbounded.  Whatever
    number of nested calls is allowed, the render is not finished within it;
    an engine ends such a chain when its call stack is exhausted. *)
Lemma renderValue_self_pair_never_returns :
  0 <= maxRecursiveRenderDepth demoSettings
  /\ selfPairHeap 0%nat = ListPairWidget (LRef 0%nat) (LNumber "2")
  /\ forall fuel,
      renderValue selfPairHeap "note.md" OtherComponent demoSettings false
                  fuel (LRef 0%nat) [] root 0 = None.
Proof.
  split; [simpl; lia|]. split; [reflexivity|].
  intros fuel. unfold renderValue.
  now rewrite selfPairHeap_never_returns.
Qed.

(** C2 at an object of class [Foo] whose field holds the object itself. *)
Lemma renderValue_foreign_object_witness :
  0 <= maxRecursiveRenderDepth demoSettings
  /\ demoHeap 8%nat = Object (Some "Foo") [("me", LRef 8%nat)]
  /\ "Foo" <> "" /\ "Foo" <> "Object"
  /\ returnsAtOnce demoHeap "note.md" OtherComponent demoSettings true
                   (LRef 8%nat) [] root 0 ([Text "<Foo>"], Returned)
  /\ forall fuel,
      renderValue demoHeap "note.md" OtherComponent demoSettings true
                  (S fuel) (LRef 8%nat) [] root 0
      = Some ([Text "<Foo>"], Returned).
Proof.
  split; [simpl; lia|]. split; [reflexivity|].
  split; [discriminate|]. split; [discriminate|].
  apply (renderValue_foreign_object (H := demoHost) demoHeap "note.md" OtherComponent
           demoSettings true 8%nat [] root (depth := 0)
           (name := "Foo") (entries := [("me", LRef 8%nat)])).
  - simpl; lia.
  - reflexivity.
  - discriminate.
  - discriminate.
Defined.

(** C3.  In the inline-field live preview the render of a string replaces
    the children of its container, so the span of the sequence
    ["a", "b", "c"] ends up holding the render of ["c"] alone, although each
    string alone is rendered as its text: the renders of ["a"] and ["b"] and
    both separators are lost. *)
Lemma renderValue_compact_sequence_live_preview :
  0 <= maxRecursiveRenderDepth demoSettings
  /\ demoHeap 5%nat = Array [LString "a"; LString "b"; LString "c"]
  /\ Forall2 (fun val part =>
                renders demoHeap "note.md" InlineFieldLivePreviewComponent
                        demoSettings false val [] list_ctx (0 + 1)
                        (part, Returned))
             [LString "a"; LString "b"; LString "c"]
             [[Text "a"]; [Text "b"]; [Text "c"]]
  /\ renders demoHeap "note.md" InlineFieldLivePreviewComponent
             demoSettings false (LRef 5%nat) [] root 0
             ([Element "span" ["dataview"; "dataview-result-list-span"] []
                       [Text "c"]], Returned)
  /\ ~ renders demoHeap "note.md" InlineFieldLivePreviewComponent
               demoSettings false (LRef 5%nat) [] root 0
               ([Element "span" ["dataview"; "dataview-result-list-span"] []
                         (separatedBy (Text ", ")
                            [[Text "a"]; [Text "b"]; [Text "c"]])],
                Returned).
Proof.
  assert (Hactual :
            renders demoHeap "note.md" InlineFieldLivePreviewComponent
              demoSettings false (LRef 5%nat) [] root 0
              ([Element "span" ["dataview"; "dataview-result-list-span"] []
                        [Text "c"]], Returned))
    by (exists 2%nat; reflexivity).
  split; [simpl; lia|]. split; [reflexivity|].
  split; [repeat constructor; exists 1%nat; reflexivity|].
  split; [exact Hactual|].
  intros Hclaimed.
  pose proof (renders_deterministic Hactual Hclaimed) as E.
  discriminate E.
Qed.

(** C4 with [renderNullAs] set to ["-"]. *)
Lemma renderValue_null_as_string_witness :
  renderNullAs demoSettings = "-"
  /\ 0 <= maxRecursiveRenderDepth demoSettings
  /\ renderValue demoHeap "note.md" OtherComponent demoSettings false
                 1 LNull [] root 0
     = renderValue demoHeap "note.md" OtherComponent demoSettings false
                   1 (LString "-") [] root 0
  /\ renderValue demoHeap "note.md" OtherComponent demoSettings false
                 1 LNull [] root 0
     = Some (renderCompactMarkdown "-" [] "note.md" OtherComponent).
Proof.
  destruct (renderValue_null_as_string (H := demoHost) demoHeap "note.md" OtherComponent
              demoSettings false 0%nat [] root 0) as [Hsame Hcall].
  split; [reflexivity|]. split; [simpl; lia|].
  split; [exact (proj1 (renderValue_null_as_string (H := demoHost) demoHeap "note.md"
                          OtherComponent demoSettings false 1%nat [] root 0))|].
  apply Hcall. simpl; lia.
Defined.

(** C5 at the pair of the key ["k"] and the value [5]. *)
Lemma renderValue_list_pair_witness :
  0 <= maxRecursiveRenderDepth demoSettings
  /\ demoHeap 2%nat = ListPairWidget (LString "k") (LNumber "5")
  /\ renders demoHeap "note.md" OtherComponent demoSettings false
             (LString "k") [] root 0
             ([Element "span" [] [] [Text "k"]], Returned)
  /\ renders demoHeap "note.md" OtherComponent demoSettings false
             (LNumber "5") [Element "span" [] [] [Text "k"]; Text ": "] root 0
             ([Element "span" [] [] [Text "k"]; Text ": ";
               Element "span" [] [] [Text "5"]], Returned)
  /\ renders demoHeap "note.md" OtherComponent demoSettings false
             (LRef 2%nat) [] root 0
             ([Element "span" [] [] [Text "k"]; Text ": ";
               Element "span" [] [] [Text "5"]], Returned).
Proof.
  assert (Hk : renders demoHeap "note.md" OtherComponent demoSettings false
                 (LString "k") [] root 0
                 ([Element "span" [] [] [Text "k"]], Returned))
    by (exists 1%nat; reflexivity).
  assert (Hv : renders demoHeap "note.md" OtherComponent demoSettings false
                 (LNumber "5") [Element "span" [] [] [Text "k"]; Text ": "] root 0
                 ([Element "span" [] [] [Text "k"]; Text ": ";
                   Element "span" [] [] [Text "5"]], Returned))
    by (exists 1%nat; reflexivity).
  split; [simpl; lia|]. split; [reflexivity|].
  split; [exact Hk|]. split; [exact Hv|].
  apply (renderValue_list_pair (H := demoHost) demoHeap "note.md" OtherComponent demoSettings
           false 2%nat (key := @LString demoHost "k")
           (value := @LNumber demoHost "5") [] root
           (depth := 0)).
  - simpl; lia.
  - reflexivity.
  - left. exists [Element "span" [] [] [Text "k"]]. split; [exact Hk | exact Hv].
Defined.

(** C6 at the widget [{url: "https://x", display: undefined}]. *)
Lemma renderValue_external_link_witness :
  0 <= maxRecursiveRenderDepth demoSettings
  /\ demoHeap 3%nat = ExternalLinkWidget "https://x" None
  /\ exists classes attrs kids,
      let elem := Element "a" classes attrs kids in
      returnsAtOnce demoHeap "note.md" OtherComponent demoSettings false
                    (LRef 3%nat) [] root 0 ([] ++ [elem], Returned)
      /\ getAttribute "rel" elem = Some "noopener"
      /\ getAttribute "target" elem = Some "_blank"
      /\ hasClass "external-link" elem
      /\ getAttribute "href" elem = Some "https://x"
      /\ textContent elem = "https://x".
Proof.
  split; [simpl; lia|]. split; [reflexivity|].
  apply (renderValue_external_link (H := demoHost) demoHeap "note.md"
           OtherComponent demoSettings false 3%nat (url := "https://x")
           (display := None) [] root (depth := 0)).
  - simpl; lia.
  - reflexivity.
Defined.

(** C7, the claim as it was stated, fails at an empty object of the class
    [Foo]: it is rendered as the text ["<Foo>"], not as ["<empty object>"]. *)
Lemma renderValue_compact_empty_foreign :
  0 <= maxRecursiveRenderDepth demoSettings
  /\ demoHeap3 1%nat = Object (Some "Foo") []
  /\ renders demoHeap3 "note.md" OtherComponent demoSettings false
             (LRef 1%nat) [] root 0 ([Text "<Foo>"], Returned)
  /\ ~ renders demoHeap3 "note.md" OtherComponent demoSettings false
               (LRef 1%nat) [] root 0 ([Text "<empty object>"], Returned).
Proof.
  assert (Hactual : renders demoHeap3 "note.md" OtherComponent demoSettings
                      false (LRef 1%nat) [] root 0 ([Text "<Foo>"], Returned))
    by (exists 1%nat; reflexivity).
  split; [simpl; lia|]. split; [reflexivity|]. split; [exact Hactual|].
  intros Hclaimed.
  pose proof (renders_deterministic Hactual Hclaimed) as E.
  discriminate E.
Qed.

(** C7 at an empty array, an empty data array, an empty plain object and an
    empty object of the class [Foo]. *)
Lemma renderValue_compact_empty_witness :
  0 <= maxRecursiveRenderDepth demoSettings
  /\ demoHeap 6%nat = Array []
  /\ demoHeap 9%nat = DataArray []
  /\ demoHeap 7%nat = Object (Some "Object") []
  /\ isForeignObject (Some "Object") = None
  /\ demoHeap3 1%nat = Object (Some "Foo") []
  /\ isForeignObject (Some "Foo") = Some "Foo"
  /\ returnsAtOnce demoHeap "note.md" OtherComponent demoSettings false
                   (LRef 6%nat) [] root 0 ([Text "<empty list>"], Returned)
  /\ returnsAtOnce demoHeap "note.md" OtherComponent demoSettings false
                   (LRef 9%nat) [] root 0 ([Text "<empty list>"], Returned)
  /\ returnsAtOnce demoHeap "note.md" OtherComponent demoSettings false
                   (LRef 7%nat) [] root 0 ([Text "<empty object>"], Returned)
  /\ returnsAtOnce demoHeap3 "note.md" OtherComponent demoSettings false
                   (LRef 1%nat) [] root 0 ([Text "<Foo>"], Returned).
Proof.
  assert (Hd : 0 <= maxRecursiveRenderDepth demoSettings) by (simpl; lia).
  split; [exact Hd|]. repeat (split; [reflexivity|]).
  split; [|split; [|split]].
  - apply (proj1 (renderValue_compact_empty (H := demoHost) demoHeap "note.md"
                    OtherComponent demoSettings 6%nat [] root Hd)).
    left; reflexivity.
  - apply (proj1 (renderValue_compact_empty (H := demoHost) demoHeap "note.md"
                    OtherComponent demoSettings 9%nat [] root Hd)).
    right; reflexivity.
  - apply (proj1 (proj2 (renderValue_compact_empty (H := demoHost) demoHeap
                           "note.md" OtherComponent demoSettings 7%nat [] root Hd))
             (Some "Object")); reflexivity.
  - apply (proj2 (proj2 (renderValue_compact_empty (H := demoHost) demoHeap3
                           "note.md" OtherComponent demoSettings 1%nat [] root Hd))
             (Some "Foo") "Foo"); reflexivity.
Defined.

(** C8 at the markdown text ["hi"], which the host renders as one paragraph. *)
Lemma renderCompactMarkdown_generic_surface_witness :
  MarkdownRenderer_renderMarkdown "hi" [] "note.md" OtherComponent
    = ([Element "p" [] [] [Text "hi"]], Returned)
  /\ renderCompactMarkdown "hi" [Text "before"] "note.md" OtherComponent
     = ([Text "before"; Element "span" [] [] [Text "hi"]], Returned).
Proof.
  split; [reflexivity|].
  destruct (renderCompactMarkdown_generic_surface (H := demoHost)
              "hi" [Text "before"] "note.md"
              (sub := [Element "p" [] [] [Text "hi"]]) eq_refl)
    as [sub' [Hcall [_ [Hone _]]]].
  rewrite Hcall.
  rewrite (Hone (Element "p" [] [] [Text "hi"]) eq_refl eq_refl).
  reflexivity.
Defined.

(** C9.  The renderer fails on values of its own accord: a bigint reaches
    the last arm, where [JSON.stringify] throws a [TypeError], and an html
    element that contains the container is refused by [appendChild] with a
    [HierarchyRequestError].  Neither failure is one of the host markdown
    renderer, and in both the container is left without a placeholder. *)
Lemma renderValue_rejects_unrecognized :
  0 <= maxRecursiveRenderDepth demoSettings
  /\ JSON_stringify (ABigInt 10)
     = inr "TypeError: Do not know how to serialize a BigInt"
  /\ renderValue demoHeap "note.md" OtherComponent demoSettings false
                 1 (LOther (ABigInt 10)) [] root 0
     = Some ([], Raised "TypeError: Do not know how to serialize a BigInt")
  /\ ~ hostRaised "note.md" OtherComponent
                  "TypeError: Do not know how to serialize a BigInt"
  /\ contains_container 0%nat = true
  /\ renderValue demoHeap "note.md" OtherComponent demoSettings false
                 1 (LHtml 0%nat) [] root 0
     = Some ([], Raised "HierarchyRequestError")
  /\ ~ hostRaised "note.md" OtherComponent "HierarchyRequestError".
Proof.
  assert (Hhost : forall e, e <> "host failure" ->
             ~ hostRaised "note.md" OtherComponent e).
  { intros e He [markdown Hm]. simpl in Hm.
    destruct (String.eqb markdown "!"); simpl in Hm; [|discriminate Hm].
    injection Hm as <-. now apply He. }
  split; [simpl; lia|]. split; [reflexivity|]. split; [reflexivity|].
  split; [apply Hhost; discriminate|].
  split; [reflexivity|]. split; [reflexivity|].
  apply Hhost; discriminate.
Qed.

(** C10 at an empty array, an empty data array, an empty plain object and
    an array of three strings. *)
Lemma renderValue_expanded_empty_witness :
  0 <= maxRecursiveRenderDepth demoSettings
  /\ demoHeap 6%nat = Array []
  /\ demoHeap 9%nat = DataArray []
  /\ demoHeap 7%nat = Object (Some "Object") []
  /\ isForeignObject (Some "Object") = None
  /\ returnsAtOnce demoHeap "note.md" OtherComponent demoSettings true
                   (LRef 6%nat) [] root 0
                   ([Element "ul"
                       ["dataview"; "dataview-ul"; "dataview-result-list-root-ul"]
                       [] []], Returned)
  /\ returnsAtOnce demoHeap "note.md" OtherComponent demoSettings true
                   (LRef 9%nat) [] list_ctx 0
                   ([Element "ul"
                       ["dataview"; "dataview-ul"; "dataview-result-list-ul"]
                       [] []], Returned)
  /\ returnsAtOnce demoHeap "note.md" OtherComponent demoSettings true
                   (LRef 7%nat) [] root 0
                   ([Element "ul"
                       ["dataview"; "dataview-ul"; "dataview-result-object-ul"]
                       [] []], Returned)
  /\ exists c o taken items,
      renderValue_taking demoHeap "note.md" OtherComponent demoSettings true
                         2 (LRef 5%nat) [Text "before"] root 0
      = Some (c, o, taken)
      /\ taken = []
      /\ c = [Text "before"]
               ++ [Element "ul" (list_ul_classes root) [] items].
Proof.
  assert (Hd : 0 <= maxRecursiveRenderDepth demoSettings) by (simpl; lia).
  split; [exact Hd|]. repeat (split; [reflexivity|]).
  split; [|split; [|split]].
  - apply (proj1 (renderValue_expanded_empty (H := demoHost) demoHeap "note.md"
                    OtherComponent demoSettings 6%nat [] root Hd)).
    left; reflexivity.
  - apply (proj1 (renderValue_expanded_empty (H := demoHost) demoHeap "note.md"
                    OtherComponent demoSettings 9%nat [] list_ctx Hd)).
    right; reflexivity.
  - apply (proj1 (proj2 (renderValue_expanded_empty (H := demoHost) demoHeap
                           "note.md" OtherComponent demoSettings 7%nat [] root Hd))
             (Some "Object")); reflexivity.
  - destruct (renderValue_taking demoHeap "note.md" OtherComponent demoSettings
                true 2 (LRef 5%nat) [Text "before"] root 0)
      as [[[c o] taken]|] eqn:E; [|discriminate E].
    exists c, o, taken.
    destruct (proj1 (proj2 (proj2 (renderValue_expanded_empty (H := demoHost)
                demoHeap "note.md" OtherComponent demoSettings 5%nat
                [Text "before"] root Hd)))
                2%nat [LString "a"; LString "b"; LString "c"] c o taken
                (or_introl eq_refl) E) as [items Hitems].
    exists items. split; [reflexivity|].
    assert (Ht : taken = []) by (injection E as _ _ <-; reflexivity).
    split; [exact Ht|]. rewrite Hitems, Ht. reflexivity.
Defined.

End Examples.

(** ** Further facts: growth, labels, attaching twice *)

Lemma detach_twice h : forall n, detachFrom h (detach h n) = detach h n.
Proof.
  fix IH 1. intros [s|tag cls attrs kids|h']; simpl.
  - reflexivity.
  - f_equal. f_equal.
    induction kids as [|k kids IHk]; simpl; [reflexivity|].
    rewrite flat_map_app. fold (detachFrom h (detach h k)).
    now rewrite IH, IHk.
  - destruct (Nat.eqb h h') eqn:E; simpl; [reflexivity|].
    now rewrite E.
Qed.

Lemma detachFrom_twice h (c : Container) :
  detachFrom h (detachFrom h c) = detachFrom h c.
Proof.
  unfold detachFrom. induction c as [|n c IH]; simpl; [reflexivity|].
  rewrite flat_map_app. fold (detachFrom h (detach h n)).
  now rewrite detach_twice, IH.
Qed.

Lemma attach_twice (c : Container) h : attach (attach c h) h = attach c h.
Proof.
  unfold attach. rewrite detachFrom_app, detachFrom_twice. simpl.
  rewrite Nat.eqb_refl. simpl. now rewrite app_nil_r.
Qed.

Lemma labelledRenders_settle (A : Type) (entries : list (string * A)) rs :
  length entries = length rs ->
  takenBy (labelledRenders entries rs) = takenBy rs
  /\ settle (labelledRenders entries rs) = labelledParts entries (settle rs).
Proof.
  revert rs. induction entries as [|e entries IH]; intros [|[part t] rs] Hlen;
    try discriminate Hlen; [now split|].
  destruct (IH rs (ltac:(simpl in Hlen; lia))) as [Ht Hs].
  unfold labelledRenders, labelledParts in *. simpl. split.
  - now rewrite Ht.
  - rewrite Ht, Hs.
    change (Text (fst e ++ ": ")%string :: part)
      with ([Text (fst e ++ ": ")%string] ++ part).
    now rewrite detachAll_app, detachAll_Text.
Qed.

Lemma labelledRenders_items `{Host} (A : Type)
    (item : string * A -> Container -> Taking)
    (value : A -> Container -> Taking)
    (entries : list (string * A)) (rs : list (Container * list HtmlElement)) :
  (forall e part t,
      value (snd e) [] = Some (part, Returned, t) ->
      item e [] = Some (Text (fst e ++ ": ")%string :: part, Returned, t)) ->
  Forall2 (fun e r => value (snd e) [] = Some (fst r, Returned, snd r))
          entries rs ->
  Forall2 (fun e r => item e [] = Some (fst r, Returned, snd r))
          entries (labelledRenders entries rs).
Proof.
  intros Hitem. induction 1 as [|e [part t] entries rs He _ IH].
  - constructor.
  - unfold labelledRenders. simpl. constructor; [now apply Hitem | exact IH].
Qed.

Section Growth.
Context {H : Host}.
Variable heap : Heap.
Variable originFile : string.
Variable settings : QuerySettings.
Variable expandList : bool.

Local Notation "'render'" :=
  (renderValue_taking heap originFile OtherComponent settings expandList).

Lemma createEl_nonempty tag cls (b : Container -> Taking) parent c o t :
  createEl tag cls b parent = Some (c, o, t) -> c <> [].
Proof.
  unfold createEl. destruct (b []) as [[[kids o'] t']|]; [|discriminate].
  intros E; injection E as <- _ _. apply not_eq_sym, app_cons_not_nil.
Qed.

(** Outside the live preview a call that returns has put something into
    its container. *)
Lemma render_nonempty (fuel : nat) :
  forall v c x d c' t, render fuel v c x d = Some (c', Returned, t) -> c' <> [].
Proof.
  induction fuel as [|fuel IH]; intros v c x d c' t; [discriminate|].
  simpl. unfold renderValue_body.
  assert (Happ : forall (l : Container) (n : Node) (o' : Outcome Error)
                       (t' : list HtmlElement),
             Some (l ++ [n], o', t') = Some (c', Returned, t) -> c' <> []).
  { intros l n o' t' E; injection E as <- _ _.
    apply not_eq_sym, app_cons_not_nil. }
  assert (Hmd : forall m,
             taking_nothing (renderCompactMarkdown m c originFile OtherComponent)
             = Some (c', Returned, t) -> c' <> []).
  { intros m. unfold renderCompactMarkdown, taking_nothing. simpl.
    destruct (MarkdownRenderer_renderMarkdown m [] originFile OtherComponent)
      as [sub [|e]]; apply Happ. }
  destruct (d >? maxRecursiveRenderDepth settings); [apply Happ|].
  destruct v; try apply Hmd; try apply Happ.
  - unfold renderHtml. destruct (contains_container h);
      [discriminate | apply Happ].
  - destruct (heap a) as [k w|url disp|tag|els|els|name entries];
      try apply Happ.
    + unfold renderListPair.
      destruct (render fuel k c x d) as [[[c1 [|e]] t1]|] eqn:Ek; simpl;
        [|discriminate|discriminate].
      destruct (render fuel w (appendText c1 ": ") x d)
        as [[[c2 o2] t2]|] eqn:Ew; [|discriminate].
      intros E; injection E as <- -> _. exact (IH _ _ _ _ _ _ Ew).
    + unfold renderSequence. destruct expandList; [apply createEl_nonempty|].
      destruct els; [apply Happ | apply createEl_nonempty].
    + unfold renderSequence. destruct expandList; [apply createEl_nonempty|].
      destruct els; [apply Happ | apply createEl_nonempty].
    + unfold renderObject. destruct (isForeignObject name); [apply Happ|].
      destruct expandList; [apply createEl_nonempty|].
      destruct entries; [apply Happ | apply createEl_nonempty].
  - unfold renderUnrecognized. destruct (JSON_stringify v);
      [apply Happ | discriminate].
Qed.

End Growth.

(** ** Further properties of the renderer *)

Section Further.
Context {H : Host}.
Variable heap : Heap.
Variable originFile : string.
Variable component : Component.
Variable settings : QuerySettings.

Local Notation "'render'" := (renderValue heap originFile component settings).
Local Notation "'rendersTo'" := (renders heap originFile component settings).
Local Notation "'atOnce'" := (returnsAtOnce heap originFile component settings).
Local Notation "'renderT'" :=
  (renderValue_taking heap originFile component settings).

(** X1.  Below the bound and in expanded mode, a sequence whose elements are
    all rendered is one [ul] with one [li] per element, in the order of the
    elements.  Each [li] holds what its element renders into an empty node
    at [depth + 1] in the context [list], less the existing elements that a
    later element has attached: an html element that occurs twice ends up
    in the item of its last occurrence.  The existing elements attached in
    the [ul] are gone from the container.  This holds for every component,
    the inline-field live preview included. *)
Theorem renderValue_expanded_sequence a elements rs container context depth :
  depth <= maxRecursiveRenderDepth settings ->
  heap a = Array elements \/ heap a = DataArray elements ->
  Forall2 (fun val r =>
             rendersTaking heap originFile component settings true
                           val [] list_ctx (depth + 1)
                           (fst r, Returned) (snd r))
          elements rs ->
  rendersTaking heap originFile component settings true
    (LRef a) container context depth
    (detachAll (takenBy rs) container ++
       [Element "ul" (list_ul_classes context) []
                (listItems ["dataview-result-list-li"] (settle rs))],
     Returned)
    (takenBy rs).
Proof.
  intros Hd Ha Hparts.
  destruct (common_fuel_of (fun v : Literal => v) (fun _ => []) Hparts)
    as [fuel Hfuel].
  exists (S fuel). rewrite (render_ref _ _ _ _ _ fuel a container context Hd).
  assert (E : renderSequence true (renderT true fuel) elements container
                             context depth
              = Some (detachAll (takenBy rs) container ++
                        [Element "ul" (list_ul_classes context) []
                           (listItems ["dataview-result-list-li"] (settle rs))],
                      Returned, takenBy rs)).
  { unfold renderSequence, createEl.
    rewrite (forEachItem_settle ["dataview-result-list-li"]
               (fun child li => renderT true fuel child li list_ctx (depth + 1))
               (Hfuel fuel (Nat.le_refl _)) []).
    now rewrite detachAll_nil. }
  destruct Ha as [Ha|Ha]; rewrite Ha; exact E.
Qed.

(** X2.  Below the bound and in expanded mode, when the render of an element
    fails, the render of the sequence fails with the same failure: the [ul]
    holds the items of the elements before it and the item of the failing
    element as far as it got, and the elements after it are not rendered,
    whatever they are. *)
Theorem renderValue_expanded_sequence_failure
    a before failing after rs kids e taken container context depth :
  depth <= maxRecursiveRenderDepth settings ->
  heap a = Array (before ++ failing :: after)
  \/ heap a = DataArray (before ++ failing :: after) ->
  Forall2 (fun val r =>
             rendersTaking heap originFile component settings true
                           val [] list_ctx (depth + 1)
                           (fst r, Returned) (snd r))
          before rs ->
  rendersTaking heap originFile component settings true
                failing [] list_ctx (depth + 1) (kids, Raised e) taken ->
  rendersTaking heap originFile component settings true
    (LRef a) container context depth
    (detachAll (takenBy (rs ++ [(kids, taken)])) container ++
       [Element "ul" (list_ul_classes context) []
                (listItems ["dataview-result-list-li"]
                           (settle (rs ++ [(kids, taken)])))],
     Raised e)
    (takenBy (rs ++ [(kids, taken)])).
Proof.
  intros Hd Ha Hparts [n Hfail].
  destruct (common_fuel_of (fun v : Literal => v) (fun _ => []) Hparts)
    as [m Hfuel].
  exists (S (Nat.max n m)).
  rewrite (render_ref _ _ _ _ _ _ a container context Hd).
  assert (Hfail' : renderT true (Nat.max n m) failing [] list_ctx (depth + 1)
                   = Some (kids, Raised e, taken))
    by (eapply renderValue_taking_mono; [apply Nat.le_max_l | exact Hfail]).
  assert (E : renderSequence true (renderT true (Nat.max n m))
                (before ++ failing :: after) container context depth
              = Some (detachAll (takenBy (rs ++ [(kids, taken)])) container ++
                        [Element "ul" (list_ul_classes context) []
                           (listItems ["dataview-result-list-li"]
                                      (settle (rs ++ [(kids, taken)])))],
                      Raised e, takenBy (rs ++ [(kids, taken)]))).
  { unfold renderSequence, createEl.
    rewrite (forEachItem_abort ["dataview-result-list-li"]
               (fun child li =>
                  renderT true (Nat.max n m) child li list_ctx (depth + 1))
               failing after
               (Hfuel _ (Nat.le_max_r n m)) Hfail' []).
    now rewrite detachAll_nil. }
  destruct Ha as [Ha|Ha]; rewrite Ha; exact E.
Qed.

(** X3.  Below the bound and in expanded mode, a plain object whose values
    are all rendered is one [ul] with one [li] per entry, in the order of the
    entries; each [li] holds what the value renders into a node that holds
    the text of the key followed by [": "], less the existing elements that
    the value of a later entry has attached. *)
Theorem renderValue_expanded_object
    a name entries rs container context depth :
  depth <= maxRecursiveRenderDepth settings ->
  heap a = Object name entries ->
  isForeignObject name = None ->
  Forall2 (fun (entry : string * Literal) r =>
             rendersTaking heap originFile component settings true
                           (snd entry) [Text (fst entry ++ ": ")%string]
                           list_ctx (depth + 1) (fst r, Returned) (snd r))
          entries rs ->
  rendersTaking heap originFile component settings true
    (LRef a) container context depth
    (detachAll (takenBy rs) container ++
       [Element "ul" ["dataview"; "dataview-ul"; "dataview-result-object-ul"] []
                (listItems ["dataview"; "dataview-li"; "dataview-result-object-li"]
                           (settle rs))],
     Returned)
    (takenBy rs).
Proof.
  intros Hd Ha Hn Hparts.
  destruct (common_fuel_of (fun e : string * Literal => snd e)
              (fun e => [Text (fst e ++ ": ")%string]) Hparts)
    as [fuel Hfuel].
  exists (S fuel). rewrite (render_ref _ _ _ _ _ fuel a container context Hd), Ha.
  unfold renderObject, createEl. rewrite Hn.
  rewrite (forEachItem_settle
             ["dataview"; "dataview-li"; "dataview-result-object-li"]
             (fun (entry : string * Literal) li =>
                renderT true fuel (snd entry)
                  (appendText li (fst entry ++ ": ")%string) list_ctx (depth + 1))
             (Hfuel fuel (Nat.le_refl _)) []).
  now rewrite detachAll_nil.
Qed.

(** X4.  Below the bound, in compact mode and outside the inline-field live
    preview, a plain object with at least one entry whose values are all
    rendered is one [span] whose children are, for each entry in order, the
    text of the key followed by [": "] and then the render of the value,
    with the text [", "] between the entries and nowhere else; an existing
    element that a later value attaches has left the render of the earlier
    one. *)
Theorem renderValue_compact_object
    a name entries rs container context depth :
  depth <= maxRecursiveRenderDepth settings ->
  component = OtherComponent ->
  heap a = Object name entries ->
  isForeignObject name = None ->
  entries <> [] ->
  Forall2 (fun (entry : string * Literal) r =>
             rendersTaking heap originFile component settings false
                           (snd entry) [] list_ctx (depth + 1)
                           (fst r, Returned) (snd r))
          entries rs ->
  rendersTaking heap originFile component settings false
    (LRef a) container context depth
    (detachAll (takenBy rs) container ++
       [Element "span" ["dataview"; "dataview-result-object-span"] []
                (separatedBy (Text ", ") (labelledParts entries (settle rs)))],
     Returned)
    (takenBy rs).
Proof.
  intros Hd Hc Ha Hn Hne Hparts.
  destruct (common_fuel_of (fun e : string * Literal => snd e)
              (fun _ => []) Hparts) as [fuel Hfuel].
  specialize (Hfuel fuel (Nat.le_refl _)).
  exists (S fuel). rewrite (render_ref _ _ _ _ _ fuel a container context Hd), Ha.
  unfold renderObject. rewrite Hn.
  destruct entries as [|e0 entries']; [now destruct Hne|].
  set (item := fun (entry : string * Literal) span =>
                 renderT false fuel (snd entry)
                   (appendText span (fst entry ++ ": ")%string)
                   list_ctx (depth + 1)).
  assert (Hframe : forall x p c, item x (p ++ c) = added_to p (item x c)).
  { intros x p c. unfold item, appendText. rewrite <- app_assoc.
    now apply render_added_to. }
  assert (Hitems : Forall2 (fun x r => item x [] = Some (fst r, Returned, snd r))
                     (e0 :: entries') (labelledRenders (e0 :: entries') rs)).
  { apply (labelledRenders_items item
             (fun v c => renderT false fuel v c list_ctx (depth + 1)));
      [|exact Hfuel].
    intros e part t He. unfold item, appendText. simpl.
    change [Text (fst e ++ ": ")%string]
      with ([Text (fst e ++ ": ")%string] ++ []).
    rewrite (render_added_to heap originFile settings false fuel Hc).
    rewrite He. simpl. now rewrite detachAll_Text. }
  destruct (labelledRenders_settle (e0 :: entries') rs
              (Forall2_length Hparts)) as [Ht Hs].
  unfold createEl.
  rewrite (forEachJoined_settle item Hframe Hitems), Ht, Hs.
  reflexivity.
Qed.

(** X15.  Below the bound, in compact mode and outside the inline-field live
    preview, a non-empty sequence whose elements are all rendered is one
    [span] with the classes [dataview] and [dataview-result-list-span] whose
    children are the renders of the elements in their order, with the text
    [", "] between them and neither before the first nor after the last; an
    existing element that a later element attaches has left the render of
    the earlier one. *)
Theorem renderValue_compact_sequence a elements rs container context depth :
  depth <= maxRecursiveRenderDepth settings ->
  component = OtherComponent ->
  heap a = Array elements \/ heap a = DataArray elements ->
  elements <> [] ->
  Forall2 (fun val r =>
             rendersTaking heap originFile component settings false
                           val [] list_ctx (depth + 1)
                           (fst r, Returned) (snd r))
          elements rs ->
  rendersTaking heap originFile component settings false
    (LRef a) container context depth
    (detachAll (takenBy rs) container ++
       [Element "span" ["dataview"; "dataview-result-list-span"] []
                (separatedBy (Text ", ") (settle rs))],
     Returned)
    (takenBy rs).
Proof.
  intros Hd Hc Ha Hne Hparts.
  destruct (common_fuel_of (fun v : Literal => v) (fun _ => []) Hparts)
    as [fuel Hfuel].
  specialize (Hfuel fuel (Nat.le_refl _)).
  exists (S fuel). rewrite (render_ref _ _ _ _ _ fuel a container context Hd).
  assert (E : renderSequence false (renderT false fuel) elements container
                             context depth
              = Some (detachAll (takenBy rs) container ++
                        [Element "span" ["dataview"; "dataview-result-list-span"]
                                 [] (separatedBy (Text ", ") (settle rs))],
                      Returned, takenBy rs)).
  { unfold renderSequence.
    destruct elements as [|v0 els]; [now destruct Hne|].
    unfold createEl.
    rewrite (forEachJoined_settle
               (fun val span => renderT false fuel val span list_ctx (depth + 1))
               (fun x p c => render_added_to heap originFile settings false fuel
                               Hc x p c list_ctx (depth + 1))
               Hfuel).
    reflexivity. }
  destruct Ha as [Ha|Ha]; rewrite Ha; exact E.
Qed.

(** X5.  Outside the inline-field live preview a call only adds to its
    container: when it comes back, returned or failed, the container holds
    what it held before, less the existing elements that the call has
    attached, followed by the new nodes; there is at least one new node when
    the call returned, and the new nodes, the outcome and the attached
    elements are the same whatever the container held. *)
Theorem renderValue_appends
    expandList field container context depth c o taken :
  component = OtherComponent ->
  rendersTaking heap originFile component settings expandList
                field container context depth (c, o) taken ->
  exists added,
    c = detachAll taken container ++ added
    /\ (o = Returned -> added <> [])
    /\ forall container',
        rendersTaking heap originFile component settings expandList
                      field container' context depth
                      (detachAll taken container' ++ added, o) taken.
Proof.
  intros Hc [fuel E].
  rewrite (render_added_to_empty heap originFile settings expandList fuel
             field container context depth Hc) in E.
  destruct (renderT expandList fuel field [] context depth)
    as [[[added o'] t']|] eqn:E0; [|discriminate].
  simpl in E. injection E as <- <- <-.
  exists added. split; [reflexivity|]. split.
  - intros ->. subst component. eapply render_nonempty. exact E0.
  - intros container'. exists fuel.
    rewrite (render_added_to_empty heap originFile settings expandList fuel
               field container' context depth Hc), E0.
    reflexivity.
Qed.

(** X14.  A call at a depth strictly greater than [maxRecursiveRenderDepth]
    appends exactly the text ["..."] and comes back without looking at the
    value and without a recursive call.  Every call comes back, also on
    sequences and mappings that contain themselves, provided no list pair is
    nested in itself through keys and values of list pairs alone; and the
    result of a call is the same for any two inputs that agree down to the
    bound, so nothing nested deeper than the bound is looked at. *)
Theorem renderValue_depth_bound :
  (forall expandList field container context depth,
      depth > maxRecursiveRenderDepth settings ->
      atOnce expandList field container context depth
             (appendText container "...", Returned))
  /\ (forall expandList fuel field container context depth,
         depth > maxRecursiveRenderDepth settings ->
         render expandList (S fuel) field container context depth =
         Some (appendText container "...", Returned))
  /\ (well_founded (pairChild heap) ->
      forall expandList field container context depth,
      exists r, rendersTo expandList field container context depth r)
  /\ (forall heap' expandList n field field' container context depth fuel,
         maxRecursiveRenderDepth settings < depth + Z.of_nat n ->
         sameUpTo heap heap' n field field' ->
         render expandList fuel field container context depth =
         renderValue heap' originFile component settings expandList
                     fuel field' container context depth).
Proof.
  assert (Hguard : forall expandList field container context depth,
             depth > maxRecursiveRenderDepth settings ->
             atOnce expandList field container context depth
                    (appendText container "...", Returned)).
  { intros expandList field container context depth Hd self.
    unfold renderValue_body. apply Z.gtb_gt in Hd. now rewrite Hd. }
  repeat split.
  - exact Hguard.
  - intros expandList fuel field container context depth Hd.
    now apply returnsAtOnce_renderValue, Hguard.
  - intros Hwf expandList field container context depth.
    destruct (render_total originFile component settings expandList Hwf
                field container context depth) as [fuel [[r t] E]].
    exists r, fuel. unfold renderValue. rewrite E. now destruct r.
  - intros heap' expandList n field field' container context depth fuel Hn Hs.
    now apply render_sameUpTo with (n := n).
Qed.

(** X16.  Below the bound, a function is rendered as the text
    ["<function>"], a widget with an unknown discriminator as
    ["<unknown widget '"], the discriminator and [">"], and a value that no
    test recognises as ["Unrecognized: "] and its dump when
    [JSON.stringify] gives one; when [JSON.stringify] throws, the call fails
    with what was thrown and the container is left as it was. *)
Theorem renderValue_placeholders expandList container context depth :
  depth <= maxRecursiveRenderDepth settings ->
  returnsAtOnce heap originFile component settings expandList
                LFunction container context depth
                (container ++ [Text "<function>"], Returned)
  /\ (forall a widget,
         heap a = UnknownWidget widget ->
         returnsAtOnce heap originFile component settings expandList
                       (LRef a) container context depth
                (container ++ [Text ("<unknown widget '" ++ widget ++ ">")%string],
                 Returned))
  /\ (forall v dump,
         JSON_stringify v = inl dump ->
         returnsAtOnce heap originFile component settings expandList
                       (LOther v) container context depth
                (container ++ [Text ("Unrecognized: " ++ dump)%string],
                 Returned))
  /\ (forall v e,
         JSON_stringify v = inr e ->
         returnsAtOnce heap originFile component settings expandList
                       (LOther v) container context depth
                (container, Raised e)).
Proof.
  intros Hd. repeat split.
  - intros self. unfold renderValue_body. now rewrite (guard_passed _ Hd).
  - intros a widget Ha self.
    unfold renderValue_body. now rewrite (guard_passed _ Hd), Ha.
  - intros v dump Hv self. unfold renderValue_body, renderUnrecognized.
    now rewrite (guard_passed _ Hd), Hv.
  - intros v e Hv self. unfold renderValue_body, renderUnrecognized.
    now rewrite (guard_passed _ Hd), Hv.
Qed.

(** X17.  Below the bound, an html element that does not contain the
    container is moved, not copied: it becomes the last child of the
    container and leaves the place it had in it; rendering it a second time
    changes nothing.  An element that contains the container is refused:
    the call fails with a [HierarchyRequestError] and the container is left
    as it was. *)
Theorem renderValue_html_moves expandList h container context depth :
  depth <= maxRecursiveRenderDepth settings ->
  (contains_container h = false ->
   (forall fuel,
       renderT expandList (S fuel) (LHtml h) container context depth
       = Some (detachFrom h container ++ [Existing h], Returned, [h]))
   /\ (forall fuel,
          renderT expandList (S fuel) (LHtml h)
                  (detachFrom h container ++ [Existing h]) context depth
          = Some (detachFrom h container ++ [Existing h], Returned, [h])))
  /\ (contains_container h = true ->
      atOnce expandList (LHtml h) container context depth
             (container, Raised (DOMException "HierarchyRequestError"))).
Proof.
  intros Hd. split.
  - intros Hh. split; intros fuel; simpl; unfold renderValue_body, renderHtml;
      rewrite (guard_passed _ Hd), Hh; [reflexivity|].
    change (detachFrom h container ++ [Existing h]) with (attach container h).
    now rewrite attach_twice.
  - intros Hh self. unfold renderValue_body, renderHtml.
    now rewrite (guard_passed _ Hd), Hh.
Qed.

(** X18.  A failure of the host markdown renderer is not caught: below the
    bound, when the host fails on the markdown text of a null, a string, a
    boolean, a number or a link, the call fails with the same failure.  In
    the inline-field live preview the container is left as it was; otherwise
    it has got a [span] that holds what the host had rendered so far. *)
Theorem renderValue_host_failure
    expandList fuel v markdown container context depth sub e :
  depth <= maxRecursiveRenderDepth settings ->
  markdownText settings v = Some markdown ->
  MarkdownRenderer_renderMarkdown markdown [] originFile component
    = (sub, Raised e) ->
  render expandList (S fuel) v container context depth =
  Some (if instanceof_InlineFieldLivePreviewComponent component
        then container
        else container ++ [Element "span" [] [] sub],
        Raised e).
Proof.
  intros Hd Hv Hhost.
  assert (Hmd : forgetTaken
                  (taking_nothing
                     (renderCompactMarkdown markdown container originFile
                                            component))
                = Some (if instanceof_InlineFieldLivePreviewComponent component
                        then container
                        else container ++ [Element "span" [] [] sub],
                        Raised e)).
  { unfold renderCompactMarkdown. rewrite Hhost.
    now destruct (instanceof_InlineFieldLivePreviewComponent component). }
  unfold renderValue. simpl. unfold renderValue_body.
  rewrite (guard_passed _ Hd).
  destruct v; try discriminate Hv; simpl in Hv; injection Hv as <-; exact Hmd.
Qed.

End Further.

Section Further2.
Context {H : Host}.
Variable heap : Heap.
Variable originFile : string.
Variable component : Component.
Variable settings : QuerySettings.

Local Notation "'render'" := (renderValue heap originFile component settings).
Local Notation "'rendersTo'" := (renders heap originFile component settings).
Local Notation "'renderT'" :=
  (renderValue_taking heap originFile component settings).

Lemma nesting_bound_taking expandList :
  flatPairs heap ->
  forall n d,
    Z.to_nat (maxRecursiveRenderDepth settings + 1 - d) = n ->
    forall v c x, exists r,
      renderT expandList (2 * n + 1) v c x d = Some r.
Proof.
  intros Hflat.
  induction n as [|n IH]; intros d Hd v c x.
  - eexists. apply render_guard. lia.
  - assert (Hle : d <= maxRecursiveRenderDepth settings) by lia.
    assert (Hdeep : forall v c x, exists r,
               renderT expandList (2 * n + 1) v c x (d + 1) = Some r)
      by (apply IH; lia).
    assert (Hplain : forall v,
               (forall a k w, v = LRef a -> heap a <> ListPairWidget k w) ->
               forall c x, exists r,
                 renderT expandList (S (2 * n + 1)) v c x d = Some r).
    { intros w Hw c' x'.
      assert (Hscal : (forall a, w <> LRef a) ->
                 exists r, renderT expandList (S (2 * n + 1)) w c' x' d = Some r).
      { intros Hnot.
        destruct (render_scalar_total heap originFile component
                    settings expandList c' x' d Hnot) as [r Er].
        exists r. eapply renderValue_taking_mono; [|exact Er]. lia. }
      destruct w as [|dt|du|s|b|nm|l|el| |a|u];
        try (apply Hscal; discriminate).
      rewrite (render_ref _ _ _ _ _ _ a c' x' Hle).
      destruct (heap a) as [k w|url disp|tag|els|els|name entries] eqn:Ea.
      - now destruct (Hw a k w eq_refl).
      - eauto.
      - eauto.
      - unfold renderSequence. destruct expandList.
        + unfold createEl.
          destruct (forEachItem_always ["dataview-result-list-li"]
                      (fun child li =>
                         renderT true (2 * n + 1) child li list_ctx (d + 1))
                      els (fun y c0 => Hdeep y c0 list_ctx) [])
            as [[[kids o] t] E]. rewrite E. eauto.
        + destruct els as [|v0 els]; [unfold taking_nothing; eauto|].
          unfold createEl.
          destruct (forEachJoined_always
                      (fun val span =>
                         renderT false (2 * n + 1) val span list_ctx (d + 1))
                      (v0 :: els) (fun y c0 => Hdeep y c0 list_ctx) true [])
            as [[[kids o] t] E]. rewrite E. eauto.
      - unfold renderSequence. destruct expandList.
        + unfold createEl.
          destruct (forEachItem_always ["dataview-result-list-li"]
                      (fun child li =>
                         renderT true (2 * n + 1) child li list_ctx (d + 1))
                      els (fun y c0 => Hdeep y c0 list_ctx) [])
            as [[[kids o] t] E]. rewrite E. eauto.
        + destruct els as [|v0 els]; [unfold taking_nothing; eauto|].
          unfold createEl.
          destruct (forEachJoined_always
                      (fun val span =>
                         renderT false (2 * n + 1) val span list_ctx (d + 1))
                      (v0 :: els) (fun y c0 => Hdeep y c0 list_ctx) true [])
            as [[[kids o] t] E]. rewrite E. eauto.
      - unfold renderObject.
        destruct (isForeignObject name); [unfold taking_nothing; eauto|].
        destruct expandList.
        + unfold createEl.
          destruct (forEachItem_always
                      ["dataview"; "dataview-li"; "dataview-result-object-li"]
                      (fun (entry : string * Literal) li =>
                         renderT true (2 * n + 1) (snd entry)
                           (appendText li (fst entry ++ ": ")%string)
                           list_ctx (d + 1))
                      entries (fun y c0 => Hdeep (snd y) _ list_ctx) [])
            as [[[kids o] t] E]. rewrite E. eauto.
        + destruct entries as [|e0 entries]; [unfold taking_nothing; eauto|].
          unfold createEl.
          destruct (forEachJoined_always
                      (fun (entry : string * Literal) span =>
                         renderT false (2 * n + 1) (snd entry)
                           (appendText span (fst entry ++ ": ")%string)
                           list_ctx (d + 1))
                      (e0 :: entries) (fun y c0 => Hdeep (snd y) _ list_ctx)
                      true [])
            as [[[kids o] t] E]. rewrite E. eauto. }
    replace (2 * S n + 1)%nat with (S (S (2 * n + 1))) by lia.
    assert (Hup : forall w,
               (forall a k u, w = LRef a -> heap a <> ListPairWidget k u) ->
               forall c x, exists r,
                 renderT expandList (S (S (2 * n + 1))) w c x d = Some r).
    { intros w Hw c' x'. destruct (Hplain w Hw c' x') as [r Er].
      exists r. eapply renderValue_taking_mono; [|exact Er]. lia. }
    destruct v; try (apply Hup; discriminate).
    destruct (heap a) as [k w|url disp|tag|els|els|name entries] eqn:Ea;
      try (apply Hup; intros a' k' u' E; injection E as <-;
           rewrite Ea; discriminate).
    rewrite (render_ref _ _ _ _ _ _ a c x Hle), Ea.
    unfold renderListPair, andThen.
    destruct (Hplain k (fun b k' u' E =>
                Hflat a k w b Ea (or_introl E) k' u') c x)
      as [[[c1 [|e]] t1] Ek]; rewrite Ek; [|eauto].
    destruct (Hplain w (fun b k' u' E =>
                Hflat a k w b Ea (or_intror E) k' u') (appendText c1 ": ") x)
      as [[[c2 o2] t2] Ew].
    rewrite Ew. eauto.
Qed.

(** X6.  When no list pair has a list pair as its key or value, a call at
    depth [d] comes back within [2 * (maxRecursiveRenderDepth + 1 - d) + 1]
    nested calls (one nested call when [d] is above the bound), however the
    arrays and objects of the heap refer to one another. *)
Theorem renderValue_nesting_bound expandList field container context depth :
  flatPairs heap ->
  exists r,
    render expandList
      (2 * Z.to_nat (maxRecursiveRenderDepth settings + 1 - depth) + 1)
      field container context depth = Some r.
Proof.
  intros Hflat.
  destruct (nesting_bound_taking expandList Hflat depth eq_refl
              field container context) as [[[c o] t] E].
  exists (c, o). unfold renderValue. now rewrite E.
Qed.

(** X7.  The context of a call shows in class names only: in compact mode
    the result is the same in the context [root] and in the context [list];
    in either mode the two results have the same outcome and the same nodes
    once class lists are disregarded. *)
Theorem renderValue_context_is_styling
    expandList fuel field container context1 context2 depth :
  render false fuel field container context1 depth =
  render false fuel field container context2 depth
  /\ sameModuloClasses
       (render expandList fuel field container context1 depth)
       (render expandList fuel field container context2 depth).
Proof.
  split.
  - unfold renderValue.
    now rewrite (render_compact_context heap originFile component settings
                   fuel field container context1 context2 depth).
  - apply sameModuloClasses_forgetTaken, render_sameModuloClasses. reflexivity.
Qed.

(** X8.  An array and a data array with the same elements are rendered
    alike, and so are two objects with the same entries whose constructor
    names both fail the foreign-object test; the names that fail it are the
    missing one, the empty one and ["Object"]. *)
Theorem renderValue_same_rendering
    expandList fuel a1 a2 container context depth :
  (forall elements,
      heap a1 = Array elements -> heap a2 = DataArray elements ->
      render expandList fuel (LRef a1) container context depth =
      render expandList fuel (LRef a2) container context depth)
  /\ (forall name1 name2 entries,
         heap a1 = Object name1 entries -> heap a2 = Object name2 entries ->
         isForeignObject name1 = None -> isForeignObject name2 = None ->
         render expandList fuel (LRef a1) container context depth =
         render expandList fuel (LRef a2) container context depth)
  /\ (forall name,
         isForeignObject name = None <->
         name = None \/ name = Some "" \/ name = Some "Object").
Proof.
  repeat split.
  - intros elements H1 H2. destruct fuel as [|fuel]; [reflexivity|].
    unfold renderValue. simpl. unfold renderValue_body. now rewrite H1, H2.
  - intros name1 name2 entries H1 H2 Hn1 Hn2.
    destruct fuel as [|fuel]; [reflexivity|].
    unfold renderValue. simpl. unfold renderValue_body, renderObject.
    now rewrite H1, H2, Hn1, Hn2.
  - unfold isForeignObject. destruct name as [name|]; [|now left].
    destruct (String.eqb name "") eqn:E1; simpl.
    + apply String.eqb_eq in E1. subst. intros _. right. now left.
    + destruct (String.eqb name "Object") eqn:E2; simpl; [|discriminate].
      apply String.eqb_eq in E2. subst. intros _. right. now right.
  - intros [-> | [-> | ->]]; reflexivity.
Qed.

(** X9.  When the host markdown renderer fails on no text, [JSON.stringify]
    throws on no unrecognised value, no html element contains the container
    and no list pair is nested in itself through keys and values of list
    pairs alone, every call returns: none fails and none runs for ever. *)
Theorem renderValue_returns expandList field container context depth :
  hostNeverFails originFile component ->
  dumpNeverThrows ->
  noneContainsContainer ->
  well_founded (pairChild heap) ->
  exists c, rendersTo expandList field container context depth (c, Returned).
Proof.
  intros Hhost Hdump Hnone Hwf.
  destruct (render_total originFile component settings expandList Hwf
              field container context depth) as [fuel [[[c [|e]] t] E]].
  - exists c, fuel. unfold renderValue. now rewrite E.
  - exfalso.
    destruct (render_failsKnown heap originFile component settings expandList
                fuel field container context depth E)
      as [[markdown Hm]|[[v Hv]|[_ [h Hh]]]].
    + rewrite Hhost in Hm. discriminate.
    + destruct (Hdump v) as [dump Hd]. congruence.
    + rewrite Hnone in Hh. discriminate.
Qed.

End Further2.

Section Further3.
Context {H : Host}.

(** X10.  In the inline-field live preview, [renderCompactMarkdown] replaces
    the children of the container: by the child nodes of the paragraph when
    the host produced one paragraph and no other node, and by everything the
    host produced otherwise.  What the container held before is gone in both
    cases, and when the host fails the container is left as it was. *)
Theorem renderCompactMarkdown_live_preview markdown container sourcePath :
  (forall tmp,
      MarkdownRenderer_renderMarkdown markdown [] sourcePath
        InlineFieldLivePreviewComponent = (tmp, Returned) ->
      exists content,
        (forall container',
            renderCompactMarkdown markdown container' sourcePath
              InlineFieldLivePreviewComponent = (content, Returned))
        /\ (forall p, tmp = [p] -> isParagraph p = true ->
            content = nodeChildNodes p)
        /\ ((~ exists p, tmp = [p] /\ isParagraph p = true) -> content = tmp))
  /\ (forall tmp e,
         MarkdownRenderer_renderMarkdown markdown [] sourcePath
           InlineFieldLivePreviewComponent = (tmp, Raised e) ->
         renderCompactMarkdown markdown container sourcePath
           InlineFieldLivePreviewComponent = (container, Raised e)).
Proof.
  split.
  - intros tmp Hhost.
    exists (fst (renderCompactMarkdown markdown [] sourcePath
                   InlineFieldLivePreviewComponent)).
    repeat split.
    + intros container'. unfold renderCompactMarkdown. simpl. rewrite Hhost.
      destruct (querySelector_scope_p tmp) as [[[b p] a]|];
        [destruct (length tmp =? 1)%nat|]; reflexivity.
    + intros p -> Hp.
      now rewrite (livePreview_single_paragraph markdown [] sourcePath Hhost Hp).
    + intros Hno.
      now rewrite (livePreview_otherwise markdown [] sourcePath Hhost Hno).
  - intros tmp e Hhost. unfold renderCompactMarkdown. simpl. now rewrite Hhost.
Qed.

(** X11.  When the host produces the same nodes for both kinds of component
    and these are a single node, or hold no paragraph that is their only
    child element, the two strategies agree on the content: the span that
    the generic strategy appends holds exactly the nodes that the live
    preview puts into the container. *)
Theorem renderCompactMarkdown_strategies_agree
    markdown container container' sourcePath sub :
  MarkdownRenderer_renderMarkdown markdown [] sourcePath
    InlineFieldLivePreviewComponent = (sub, Returned) ->
  MarkdownRenderer_renderMarkdown markdown [] sourcePath OtherComponent
    = (sub, Returned) ->
  length sub = 1%nat \/ (~ exists p, onlyChildIsParagraph sub p) ->
  renderCompactMarkdown markdown container sourcePath OtherComponent =
  (container ++
     [Element "span" [] []
        (fst (renderCompactMarkdown markdown container' sourcePath
                InlineFieldLivePreviewComponent))],
   Returned).
Proof.
  intros Hpre Hgen Hsub.
  assert (Hcall : renderCompactMarkdown markdown container sourcePath OtherComponent
                  = (container ++ [Element "span" [] [] (collapseParagraph sub)],
                     Returned))
    by (unfold renderCompactMarkdown; simpl; now rewrite Hgen).
  rewrite Hcall.
  enough (E : collapseParagraph sub =
              fst (renderCompactMarkdown markdown container' sourcePath
                     InlineFieldLivePreviewComponent)) by now rewrite E.
  assert (Hone : forall p, sub = [p] -> isParagraph p = true ->
             collapseParagraph sub =
             fst (renderCompactMarkdown markdown container' sourcePath
                    InlineFieldLivePreviewComponent)).
  { intros p -> Hp.
    rewrite (livePreview_single_paragraph markdown container' sourcePath Hpre Hp).
    unfold collapseParagraph, children. simpl.
    rewrite Hp, (isParagraph_isElement _ Hp). simpl. now rewrite hoistLoop_app. }
  assert (Hnone : (~ exists p, onlyChildIsParagraph sub p) ->
             collapseParagraph sub =
             fst (renderCompactMarkdown markdown container' sourcePath
                    InlineFieldLivePreviewComponent)).
  { intros Hno. rewrite (collapseParagraph_otherwise Hno).
    rewrite (livePreview_otherwise markdown container' sourcePath Hpre);
      [reflexivity|].
    intros [p [-> Hp]]. apply Hno. exists p. split; [|exact Hp].
    unfold children. simpl. now rewrite (isParagraph_isElement _ Hp). }
  destruct Hsub as [Hlen|Hno]; [|now apply Hnone].
  destruct sub as [|p [|q sub]]; try discriminate Hlen.
  destruct (isParagraph p) eqn:Hp; [now apply (Hone p)|].
  apply Hnone. intros [q [Hq Hq']]. unfold children in Hq. simpl in Hq.
  destruct (isElement p); [|discriminate Hq].
  injection Hq as ->. congruence.
Qed.

(** X12.  [renderCodeBlock] appends one [code] element with the class
    [dataview] and keeps what the container held.  When no language is
    given, or one without whitespace, the element holds the source as its
    only text and has a class [language-l] exactly when the language [l] is
    given and is not the empty string.  When the language holds a
    whitespace character the call fails with an [InvalidCharacterError],
    and the element is left in the container without the source text. *)
Theorem renderCodeBlock_classes container source language :
  ((forall l, language = Some l -> hasAsciiWhitespace l = false) ->
   exists cls,
     renderCodeBlock container source language =
     (container ++ [Element "code" cls [] [Text source]], Returned)
     /\ In "dataview" cls
     /\ textContent (Element "code" cls [] [Text source]) = source
     /\ forall l,
         In ("language-" ++ l)%string cls <-> language = Some l /\ l <> "")
  /\ (forall l,
         language = Some l -> hasAsciiWhitespace l = true ->
         renderCodeBlock container source language =
         (container ++ [Element "code" ["dataview"] [] []],
          Raised (DOMException "InvalidCharacterError"))).
Proof.
  unfold renderCodeBlock.
  assert (Htext : forall cls, textContent (Element "code" cls [] [Text source])
                              = source)
    by (intros; simpl; apply append_empty_r).
  assert (Hws : forall l, hasAsciiWhitespace ("language-" ++ l) =
                          hasAsciiWhitespace l) by reflexivity.
  split.
  - intros Hclean. destruct language as [l0|].
    + destruct (String.eqb l0 "") eqn:E.
      * apply String.eqb_eq in E. subst l0.
        exists ["dataview"].
        split; [reflexivity|]. split; [now left|]. split; [apply Htext|].
        intros l. split.
        -- intros [Hin|[]]. discriminate Hin.
        -- intros [Hl Hne]. injection Hl as <-. now destruct Hne.
      * apply String.eqb_neq in E.
        rewrite Hws, (Hclean l0 eq_refl).
        exists ["dataview"; ("language-" ++ l0)%string].
        split; [reflexivity|]. split; [now left|]. split; [apply Htext|].
        intros l. split.
        -- intros [Hin|[Hin|[]]]; [discriminate Hin|].
           simpl in Hin. injection Hin as ->. now split.
        -- intros [Hl _]. injection Hl as ->. right. now left.
    + exists ["dataview"].
      split; [reflexivity|]. split; [now left|]. split; [apply Htext|].
      intros l. split.
      * intros [Hin|[]]. discriminate Hin.
      * intros [Hl _]. discriminate Hl.
  - intros l -> Hl.
    destruct (String.eqb l "") eqn:E.
    + apply String.eqb_eq in E. subst l. discriminate Hl.
    + now rewrite Hws, Hl.
Qed.

End Further3.

Section Further4.
Context {H : Host}.
Variable heap : Heap.
Variable originFile : string.
Variable settings : QuerySettings.

Local Notation "'rendersTo'" :=
  (renders heap originFile InlineFieldLivePreviewComponent settings).

(** X13.  In the inline-field live preview and in compact mode, a sequence
    whose last element is null, a string, a boolean, a number or a link, and
    whose elements are all rendered one level below a depth within the
    bound, is one [span] that holds what the last element renders and
    nothing else: the renders of the elements before it and the separators
    are replaced by it.  The existing elements that the earlier elements
    attached are gone from the container, and from the span as well. *)
Theorem renderValue_live_preview_last
    a before last rs content container context depth :
  depth + 1 <= maxRecursiveRenderDepth settings ->
  heap a = Array (before ++ [last]) \/ heap a = DataArray (before ++ [last]) ->
  isMarkdownRendered last = true ->
  Forall2 (fun val r =>
             rendersTaking heap originFile InlineFieldLivePreviewComponent
                           settings false val [] list_ctx (depth + 1)
                           (fst r, Returned) (snd r))
          before rs ->
  rendersTo false last [] list_ctx (depth + 1) (content, Returned) ->
  rendersTaking heap originFile InlineFieldLivePreviewComponent settings false
    (LRef a) container context depth
    (detachAll (takenBy rs) container ++
       [Element "span" ["dataview"; "dataview-result-list-span"] [] content],
     Returned)
    (takenBy rs).
Proof.
  intros Hd Ha Hlast Hbefore Hcontent.
  destruct (renders_rendersTaking Hcontent) as [tl [n Hn]].
  destruct (returning_fuel Hbefore) as [m Hm].
  exists (S (Nat.max n m)).
  rewrite (render_ref _ _ _ _ _ _ a container context
             (ltac:(lia) : depth <= maxRecursiveRenderDepth settings)).
  assert (E : renderSequence false
                (renderValue_taking heap originFile
                   InlineFieldLivePreviewComponent settings false (Nat.max n m))
                (before ++ [last]) container context depth
              = Some (detachAll (takenBy rs) container ++
                        [Element "span" ["dataview"; "dataview-result-list-span"]
                                 [] content],
                      Returned, takenBy rs)).
  { unfold renderSequence.
    destruct (before ++ [last]) as [|v0 rest] eqn:El;
      [now destruct before|].
    rewrite <- El. unfold createEl.
    rewrite (forEachJoined_last
               (fun val span =>
                  renderValue_taking heap originFile
                    InlineFieldLivePreviewComponent
                    settings false (Nat.max n m) val span list_ctx (depth + 1))
               last (before := before) (rs := rs) (content := content)).
    - reflexivity.
    - exact (Hm _ (Nat.le_max_r n m)).
    - intros c. eapply livePreview_value_replaces; [exact Hd | exact Hlast|].
      eapply renderValue_taking_mono; [apply Nat.le_max_l | exact Hn]. }
  destruct Ha as [Ha|Ha]; rewrite Ha; exact E.
Qed.

End Further4.

(** ** The further properties at concrete inputs *)

Section FurtherExamples.
#[local] Existing Instance demoHost.

(** X1 at the array of the html element 7 twice, into a container that
    holds the element already: the element ends up in the second item. *)
Lemma renderValue_expanded_sequence_witness :
  0 <= maxRecursiveRenderDepth demoSettings
  /\ demoHeap3 0%nat = Array [LHtml 7%nat; LHtml 7%nat]
  /\ rendersTaking demoHeap3 "note.md" OtherComponent demoSettings true
       (LRef 0%nat) [Existing 7%nat; Text "before"] root 0
       ([Text "before";
         Element "ul"
           ["dataview"; "dataview-ul"; "dataview-result-list-root-ul"] []
           [Element "li" ["dataview-result-list-li"] [] [];
            Element "li" ["dataview-result-list-li"] [] [Existing 7%nat]]],
        Returned)
       [7%nat; 7%nat].
Proof.
  split; [simpl; lia|]. split; [reflexivity|].
  apply (renderValue_expanded_sequence (H := demoHost) (heap := demoHeap3)
           (originFile := "note.md") (component := OtherComponent)
           (settings := demoSettings) 0%nat
           (elements := [@LHtml demoHost 7%nat; @LHtml demoHost 7%nat])
           (rs := [([Existing 7%nat], [7%nat]); ([Existing 7%nat], [7%nat])])
           [Existing 7%nat; Text "before"] root (depth := 0)).
  - simpl; lia.
  - left; reflexivity.
  - repeat constructor; exists 1%nat; reflexivity.
Defined.

(** X2 at the array of the html element 7 twice, the text ["!"] on which
    the host fails, and a list pair that is its own key. *)
Lemma renderValue_expanded_sequence_failure_witness :
  0 <= maxRecursiveRenderDepth demoSettings
  /\ demoHeap3 4%nat
     = Array ([LHtml 7%nat; LHtml 7%nat] ++ LString "!" :: [LRef 5%nat])
  /\ demoHeap3 5%nat = ListPairWidget (LRef 5%nat) (LNumber "2")
  /\ rendersTaking demoHeap3 "note.md" OtherComponent demoSettings true
       (LRef 4%nat) [] root 0
       ([Element "ul"
           ["dataview"; "dataview-ul"; "dataview-result-list-root-ul"] []
           [Element "li" ["dataview-result-list-li"] [] [];
            Element "li" ["dataview-result-list-li"] [] [Existing 7%nat];
            Element "li" ["dataview-result-list-li"] []
              [Element "span" [] [] []]]],
        Raised "host failure")
       [7%nat; 7%nat].
Proof.
  split; [simpl; lia|]. split; [reflexivity|]. split; [reflexivity|].
  apply (renderValue_expanded_sequence_failure (H := demoHost)
           (heap := demoHeap3) (originFile := "note.md")
           (component := OtherComponent) (settings := demoSettings) 4%nat
           (before := [@LHtml demoHost 7%nat; @LHtml demoHost 7%nat])
           (failing := @LString demoHost "!")
           [@LRef demoHost 5%nat]
           (rs := [([Existing 7%nat], [7%nat]); ([Existing 7%nat], [7%nat])])
           (kids := [Element "span" [] [] []])
           (e := "host failure") (taken := []) [] root (depth := 0)).
  - simpl; lia.
  - left; reflexivity.
  - repeat constructor; exists 1%nat; reflexivity.
  - exists 1%nat; reflexivity.
Defined.

(** X3 at the object [{a: el, b: el}] with the same html element twice. *)
Lemma renderValue_expanded_object_witness :
  0 <= maxRecursiveRenderDepth demoSettings
  /\ demoHeap3 3%nat = Object None [("a", LHtml 7%nat); ("b", LHtml 7%nat)]
  /\ isForeignObject None = None
  /\ rendersTaking demoHeap3 "note.md" OtherComponent demoSettings true
       (LRef 3%nat) [] root 0
       ([Element "ul"
           ["dataview"; "dataview-ul"; "dataview-result-object-ul"] []
           [Element "li"
              ["dataview"; "dataview-li"; "dataview-result-object-li"] []
              [Text "a: "];
            Element "li"
              ["dataview"; "dataview-li"; "dataview-result-object-li"] []
              [Text "b: "; Existing 7%nat]]],
        Returned)
       [7%nat; 7%nat].
Proof.
  split; [simpl; lia|]. split; [reflexivity|]. split; [reflexivity|].
  apply (renderValue_expanded_object (H := demoHost) (heap := demoHeap3)
           (originFile := "note.md") (component := OtherComponent)
           (settings := demoSettings) 3%nat (name := None)
           (entries := [("a", @LHtml demoHost 7%nat);
                        ("b", @LHtml demoHost 7%nat)])
           (rs := [([Text "a: "; Existing 7%nat], [7%nat]);
                   ([Text "b: "; Existing 7%nat], [7%nat])])
           [] root (depth := 0)).
  - simpl; lia.
  - reflexivity.
  - reflexivity.
  - repeat constructor; exists 1%nat; reflexivity.
Defined.

(** X4 at the object [{a: el, b: el}] with the same html element twice. *)
Lemma renderValue_compact_object_witness :
  0 <= maxRecursiveRenderDepth demoSettings
  /\ demoHeap3 3%nat = Object None [("a", LHtml 7%nat); ("b", LHtml 7%nat)]
  /\ isForeignObject None = None
  /\ rendersTaking demoHeap3 "note.md" OtherComponent demoSettings false
       (LRef 3%nat) [] root 0
       ([Element "span" ["dataview"; "dataview-result-object-span"] []
           [Text "a: "; Text ", "; Text "b: "; Existing 7%nat]],
        Returned)
       [7%nat; 7%nat].
Proof.
  split; [simpl; lia|]. split; [reflexivity|]. split; [reflexivity|].
  apply (renderValue_compact_object (H := demoHost) (heap := demoHeap3)
           (originFile := "note.md") (component := OtherComponent)
           (settings := demoSettings) 3%nat
           (name := None)
           (entries := [("a", @LHtml demoHost 7%nat);
                        ("b", @LHtml demoHost 7%nat)])
           (rs := [([Existing 7%nat], [7%nat]); ([Existing 7%nat], [7%nat])])
           [] root (depth := 0)).
  - simpl; lia.
  - reflexivity.
  - reflexivity.
  - reflexivity.
  - discriminate.
  - repeat constructor; exists 1%nat; reflexivity.
Defined.

(** X15 at the sequence ["a", "b", "c"], outside the live preview. *)
Lemma renderValue_compact_sequence_witness :
  0 <= maxRecursiveRenderDepth demoSettings
  /\ demoHeap 5%nat = Array [LString "a"; LString "b"; LString "c"]
  /\ rendersTaking demoHeap "note.md" OtherComponent demoSettings false
       (LRef 5%nat) [] root 0
       ([Element "span" ["dataview"; "dataview-result-list-span"] []
           [Element "span" [] [] [Text "a"]; Text ", ";
            Element "span" [] [] [Text "b"]; Text ", ";
            Element "span" [] [] [Text "c"]]],
        Returned)
       [].
Proof.
  split; [simpl; lia|]. split; [reflexivity|].
  apply (renderValue_compact_sequence (H := demoHost) (heap := demoHeap)
           (originFile := "note.md") (component := OtherComponent)
           (settings := demoSettings) 5%nat
           (elements := [@LString demoHost "a"; @LString demoHost "b";
                         @LString demoHost "c"])
           (rs := [([Element "span" [] [] [Text "a"]], []);
                   ([Element "span" [] [] [Text "b"]], []);
                   ([Element "span" [] [] [Text "c"]], [])])
           [] root (depth := 0)).
  - simpl; lia.
  - reflexivity.
  - left; reflexivity.
  - discriminate.
  - repeat constructor; exists 1%nat; reflexivity.
Defined.

(** X5 at the html element 7 and a container that holds it before a text:
    the element moves behind the text. *)
Lemma renderValue_appends_witness :
  rendersTaking demoHeap "note.md" OtherComponent demoSettings false
                (LHtml 7%nat) [Existing 7%nat; Text "before"] root 0
                ([Text "before"; Existing 7%nat], Returned) [7%nat]
  /\ exists added,
      [Text "before"; Existing 7%nat]
      = detachAll [7%nat] [Existing 7%nat; Text "before"] ++ added
      /\ (@Returned (@Error demoHost) = Returned -> added <> [])
      /\ forall container',
          rendersTaking demoHeap "note.md" OtherComponent demoSettings false
                        (LHtml 7%nat) container' root 0
                        (detachAll [7%nat] container' ++ added, Returned)
                        [7%nat].
Proof.
  assert (Hcall : rendersTaking demoHeap "note.md" OtherComponent demoSettings
                    false (LHtml 7%nat) [Existing 7%nat; Text "before"] root 0
                    ([Text "before"; Existing 7%nat], Returned) [7%nat])
    by (exists 1%nat; reflexivity).
  split; [exact Hcall|].
  exact (renderValue_appends (H := demoHost) (component := OtherComponent)
           eq_refl Hcall).
Defined.

(** X6 at an array that holds itself, with the bound 2: seven nested calls
    are enough. *)
Lemma renderValue_nesting_bound_witness :
  flatPairs demoHeap
  /\ demoHeap 0%nat = Array [LRef 0%nat; LString "a"]
  /\ maxRecursiveRenderDepth demoSettings = 2
  /\ exists r,
      renderValue demoHeap "note.md" OtherComponent demoSettings false
                  7 (LRef 0%nat) [] root 0 = Some r.
Proof.
  split; [exact demoHeap_flatPairs|]. split; [reflexivity|].
  split; [reflexivity|].
  exact (renderValue_nesting_bound (H := demoHost) "note.md" OtherComponent
           demoSettings false (LRef 0%nat) [] root 0 demoHeap_flatPairs).
Defined.

(** X8 at an array and a data array of ["a", "b"], and at two objects
    [{a: "x", b: 1}], one with the constructor name ["Object"] and one with
    the empty name. *)
Lemma renderValue_same_rendering_witness :
  demoHeap2 3%nat = Array [LString "a"; LString "b"]
  /\ demoHeap2 4%nat = DataArray [LString "a"; LString "b"]
  /\ renderValue demoHeap2 "note.md" OtherComponent demoSettings false
                 2 (LRef 3%nat) [] root 0
     = renderValue demoHeap2 "note.md" OtherComponent demoSettings false
                   2 (LRef 4%nat) [] root 0
  /\ isForeignObject (Some "") = None
  /\ renderValue demoHeap2 "note.md" OtherComponent demoSettings false
                 2 (LRef 0%nat) [] root 0
     = renderValue demoHeap2 "note.md" OtherComponent demoSettings false
                   2 (LRef 5%nat) [] root 0.
Proof.
  split; [reflexivity|]. split; [reflexivity|].
  split; [exact (proj1 (renderValue_same_rendering (H := demoHost) demoHeap2
                          "note.md" OtherComponent demoSettings false 2%nat
                          3%nat 4%nat [] root 0) _ eq_refl eq_refl)|].
  split; [reflexivity|].
  exact (proj1 (proj2 (renderValue_same_rendering (H := demoHost) demoHeap2
                         "note.md" OtherComponent demoSettings false 2%nat
                         0%nat 5%nat [] root 0))
           (Some "Object") (Some "") _ eq_refl eq_refl eq_refl eq_refl).
Defined.

(** X10 at the text ["hi"], rendered as one paragraph, and at the text
    ["!"], on which the host fails. *)
Lemma renderCompactMarkdown_live_preview_witness :
  MarkdownRenderer_renderMarkdown "hi" [] "note.md"
    InlineFieldLivePreviewComponent
  = ([Element "p" [] [] [Text "hi"]], Returned)
  /\ renderCompactMarkdown "hi" [Text "old"] "note.md"
       InlineFieldLivePreviewComponent
     = ([Text "hi"], Returned)
  /\ MarkdownRenderer_renderMarkdown "!" [] "note.md"
       InlineFieldLivePreviewComponent
     = ([], Raised "host failure")
  /\ renderCompactMarkdown "!" [Text "old"] "note.md"
       InlineFieldLivePreviewComponent
     = ([Text "old"], Raised "host failure").
Proof.
  split; [reflexivity|].
  split.
  - destruct (proj1 (renderCompactMarkdown_live_preview (H := demoHost)
                       "hi" [Text "old"] "note.md")
                [Element "p" [] [] [Text "hi"]] eq_refl)
      as [content [Hcall [Hone _]]].
    rewrite Hcall.
    now rewrite (Hone (Element "p" [] [] [Text "hi"]) eq_refl eq_refl).
  - split; [reflexivity|].
    exact (proj2 (renderCompactMarkdown_live_preview (H := demoHost)
                    "!" [Text "old"] "note.md") [] "host failure" eq_refl).
Defined.

(** X11 at the text ["hi"]. *)
Lemma renderCompactMarkdown_strategies_agree_witness :
  MarkdownRenderer_renderMarkdown "hi" [] "note.md"
    InlineFieldLivePreviewComponent
  = ([Element "p" [] [] [Text "hi"]], Returned)
  /\ MarkdownRenderer_renderMarkdown "hi" [] "note.md" OtherComponent
     = ([Element "p" [] [] [Text "hi"]], Returned)
  /\ length [Element "p" [] [] [Text "hi"]] = 1%nat
  /\ renderCompactMarkdown "hi" [Text "old"] "note.md" OtherComponent
     = ([Text "old"] ++
          [Element "span" [] []
             (fst (renderCompactMarkdown "hi" [Text "old"] "note.md"
                     InlineFieldLivePreviewComponent))],
        Returned).
Proof.
  split; [reflexivity|]. split; [reflexivity|]. split; [reflexivity|].
  apply (renderCompactMarkdown_strategies_agree (H := demoHost)
           "hi" [Text "old"] [Text "old"] "note.md"
           (sub := [Element "p" [] [] [Text "hi"]])).
  - reflexivity.
  - reflexivity.
  - left; reflexivity.
Defined.

(** X12 at the languages ["js"] and ["a b"]. *)
Lemma renderCodeBlock_classes_witness :
  hasAsciiWhitespace "js" = false
  /\ (exists cls,
         renderCodeBlock [Text "old"] "x = 1" (Some "js")
         = ([Text "old"] ++ [Element "code" cls [] [Text "x = 1"]], Returned)
         /\ In "dataview" cls
         /\ textContent (Element "code" cls [] [Text "x = 1"]) = "x = 1"
         /\ forall l,
             In ("language-" ++ l)%string cls <-> Some "js" = Some l /\ l <> "")
  /\ hasAsciiWhitespace "a b" = true
  /\ renderCodeBlock [Text "old"] "x = 1" (Some "a b")
     = ([Text "old"] ++ [Element "code" ["dataview"] [] []],
        Raised "InvalidCharacterError").
Proof.
  split; [reflexivity|].
  split.
  - apply (proj1 (renderCodeBlock_classes (H := demoHost)
                    [Text "old"] "x = 1" (Some "js"))).
    intros l E. injection E as <-. reflexivity.
  - split; [reflexivity|].
    exact (proj2 (renderCodeBlock_classes (H := demoHost)
                    [Text "old"] "x = 1" (Some "a b")) "a b" eq_refl eq_refl).
Defined.

(** X13 at the array of the html element 7 and the string ["a"], into a
    container that holds the element: the element ends up nowhere. *)
Lemma renderValue_live_preview_last_witness :
  0 + 1 <= maxRecursiveRenderDepth demoSettings
  /\ demoHeap3 2%nat
     = Array ([@LHtml demoHost 7%nat] ++ [@LString demoHost "a"])
  /\ rendersTaking demoHeap3 "note.md" InlineFieldLivePreviewComponent
       demoSettings false (LRef 2%nat) [Existing 7%nat; Text "old"] root 0
       ([Text "old";
         Element "span" ["dataview"; "dataview-result-list-span"] []
                 [Text "a"]],
        Returned)
       [7%nat].
Proof.
  split; [simpl; lia|]. split; [reflexivity|].
  apply (renderValue_live_preview_last (H := demoHost) (heap := demoHeap3)
           (originFile := "note.md") (settings := demoSettings) 2%nat
           (before := [@LHtml demoHost 7%nat])
           (last := @LString demoHost "a")
           (rs := [([Existing 7%nat], [7%nat])]) (content := [Text "a"])
           [Existing 7%nat; Text "old"] root 0).
  - simpl; lia.
  - left; reflexivity.
  - reflexivity.
  - repeat constructor; exists 1%nat; reflexivity.
  - exists 1%nat; reflexivity.
Defined.

(** X14 at an array that holds itself and an object that holds itself; the
    array and an array of two other values, which agree in their length
    alone, are rendered alike at the depth of the bound. *)
Lemma renderValue_depth_bound_witness :
  well_founded (pairChild demoHeap)
  /\ demoHeap 0%nat = Array [LRef 0%nat; LString "a"]
  /\ otherHeap 0%nat = Array [LString "x"; LNumber "7"]
  /\ maxRecursiveRenderDepth demoSettings = 2
  /\ (exists r,
         renders demoHeap "note.md" OtherComponent demoSettings false
                 (LRef 0%nat) [] root 0 r)
  /\ (exists r,
         renders demoHeap "note.md" OtherComponent demoSettings true
                 (LRef 1%nat) [] root 0 r)
  /\ renderValue demoHeap "note.md" OtherComponent demoSettings false
                 1 (LRef 0%nat) [] list_ctx 3
     = Some ([Text "..."], Returned)
  /\ sameUpTo demoHeap otherHeap 1 (LRef 0%nat) (LRef 0%nat)
  /\ renderValue demoHeap "note.md" OtherComponent demoSettings false
                 2 (LRef 0%nat) [] list_ctx 2
     = renderValue otherHeap "note.md" OtherComponent demoSettings false
                   2 (LRef 0%nat) [] list_ctx 2
  /\ renderValue otherHeap "note.md" OtherComponent demoSettings false
                 2 (LRef 0%nat) [] list_ctx 2
     = Some ([Element "span" ["dataview"; "dataview-result-list-span"] []
                [Text "..."; Text ", "; Text "..."]], Returned).
Proof.
  destruct (renderValue_depth_bound (H := demoHost) demoHeap "note.md"
              OtherComponent demoSettings)
    as [_ [Hguard [Htotal Hsame]]].
  assert (Hs : sameUpTo demoHeap otherHeap 1 (LRef 0%nat) (LRef 0%nat)).
  { apply same_ref. simpl. apply same_array.
    repeat constructor. }
  split; [exact demoHeap_pairs_well_founded|].
  split; [reflexivity|]. split; [reflexivity|]. split; [reflexivity|].
  split; [apply Htotal, demoHeap_pairs_well_founded|].
  split; [apply Htotal, demoHeap_pairs_well_founded|].
  split; [apply Hguard; simpl; lia|].
  split; [exact Hs|].
  split; [|reflexivity].
  apply Hsame with (n := 1%nat); [simpl; lia | exact Hs].
Defined.

(** X16 at a function, an unknown widget, a symbol and a bigint. *)
Lemma renderValue_placeholders_witness :
  0 <= maxRecursiveRenderDepth demoSettings
  /\ demoHeap 4%nat = UnknownWidget "custom"
  /\ JSON_stringify (ASymbol "s") = inl "undefined"
  /\ JSON_stringify (ABigInt 10)
     = inr "TypeError: Do not know how to serialize a BigInt"
  /\ returnsAtOnce demoHeap "note.md" OtherComponent demoSettings false
                   LFunction [] root 0 ([Text "<function>"], Returned)
  /\ returnsAtOnce demoHeap "note.md" OtherComponent demoSettings false
                   (LRef 4%nat) [] root 0
                   ([Text "<unknown widget 'custom>"], Returned)
  /\ returnsAtOnce demoHeap "note.md" OtherComponent demoSettings false
                   (LOther (ASymbol "s")) [] root 0
                   ([Text "Unrecognized: undefined"], Returned)
  /\ returnsAtOnce demoHeap "note.md" OtherComponent demoSettings false
                   (LOther (ABigInt 10)) [] root 0
                   ([], Raised "TypeError: Do not know how to serialize a BigInt").
Proof.
  assert (Hd : 0 <= maxRecursiveRenderDepth demoSettings) by (simpl; lia).
  destruct (renderValue_placeholders (H := demoHost) demoHeap "note.md"
              OtherComponent demoSettings false [] root Hd)
    as [Hfun [Hwidget [Hdump Hthrow]]].
  split; [exact Hd|]. repeat (split; [reflexivity|]).
  split; [exact Hfun|].
  split; [exact (Hwidget 4%nat "custom" eq_refl)|].
  split; [exact (Hdump (ASymbol "s") "undefined" eq_refl)|].
  exact (Hthrow (ABigInt 10) _ eq_refl).
Defined.

(** X17 at the html element 7, which the container holds before a text, and
    at the html element 0, which contains the container. *)
Lemma renderValue_html_moves_witness :
  0 <= maxRecursiveRenderDepth demoSettings
  /\ contains_container 7%nat = false
  /\ contains_container 0%nat = true
  /\ renderValue_taking demoHeap "note.md" OtherComponent demoSettings false
       1 (LHtml 7%nat) [Existing 7%nat; Text "t"] root 0
     = Some ([Text "t"; Existing 7%nat], Returned, [7%nat])
  /\ renderValue_taking demoHeap "note.md" OtherComponent demoSettings false
       1 (LHtml 7%nat) [Text "t"; Existing 7%nat] root 0
     = Some ([Text "t"; Existing 7%nat], Returned, [7%nat])
  /\ returnsAtOnce demoHeap "note.md" OtherComponent demoSettings false
                   (LHtml 0%nat) [Text "t"] root 0
                   ([Text "t"], Raised "HierarchyRequestError").
Proof.
  assert (Hd : 0 <= maxRecursiveRenderDepth demoSettings) by (simpl; lia).
  destruct (renderValue_html_moves (H := demoHost) demoHeap "note.md"
              OtherComponent demoSettings false 7%nat
              [Existing 7%nat; Text "t"] root Hd) as [Hmove _].
  destruct (Hmove eq_refl) as [Hfirst Hsecond].
  split; [exact Hd|]. split; [reflexivity|]. split; [reflexivity|].
  split; [exact (Hfirst 0%nat)|].
  split; [exact (Hsecond 0%nat)|].
  exact (proj2 (renderValue_html_moves (H := demoHost) demoHeap "note.md"
                  OtherComponent demoSettings false 0%nat
                  [Text "t"] root Hd) eq_refl).
Defined.

(** X18 at the string ["!"], on which the host fails. *)
Lemma renderValue_host_failure_witness :
  0 <= maxRecursiveRenderDepth demoSettings
  /\ MarkdownRenderer_renderMarkdown "!" [] "note.md" OtherComponent
     = ([], Raised "host failure")
  /\ renderValue demoHeap "note.md" OtherComponent demoSettings false
                 1 (LString "!") [Text "old"] root 0
     = Some ([Text "old"; Element "span" [] [] []], Raised "host failure")
  /\ renderValue demoHeap "note.md" InlineFieldLivePreviewComponent
                 demoSettings false 1 (LString "!") [Text "old"] root 0
     = Some ([Text "old"], Raised "host failure").
Proof.
  assert (Hd : 0 <= maxRecursiveRenderDepth demoSettings) by (simpl; lia).
  split; [exact Hd|]. split; [reflexivity|].
  split.
  - exact (renderValue_host_failure (H := demoHost) demoHeap "note.md"
             OtherComponent demoSettings false 0%nat (LString "!")
             [Text "old"] root Hd eq_refl eq_refl).
  - exact (renderValue_host_failure (H := demoHost) demoHeap "note.md"
             InlineFieldLivePreviewComponent demoSettings false 0%nat
             (LString "!") [Text "old"] root Hd eq_refl eq_refl).
Defined.

End FurtherExamples.

(** X9 at an array that holds itself, an html element and a symbol, with a
    host in which nothing fails. *)
Lemma renderValue_returns_witness :
  hostNeverFails (H := quietHost) "note.md" OtherComponent
  /\ dumpNeverThrows (H := quietHost)
  /\ noneContainsContainer (H := quietHost)
  /\ well_founded (pairChild quietHeap)
  /\ exists c,
      renders quietHeap "note.md" OtherComponent demoSettings false
              (LRef 0%nat) [] root 0 (c, Returned).
Proof.
  assert (Hhost : hostNeverFails (H := quietHost) "note.md" OtherComponent)
    by (intros markdown; reflexivity).
  assert (Hdump : dumpNeverThrows (H := quietHost))
    by (intros v; exists "undefined"; reflexivity).
  assert (Hnone : noneContainsContainer (H := quietHost))
    by (intros h; reflexivity).
  split; [exact Hhost|]. split; [exact Hdump|]. split; [exact Hnone|].
  split; [exact quietHeap_pairs_well_founded|].
  exact (renderValue_returns (H := quietHost) demoSettings false
           (LRef 0%nat) [] root 0 Hhost Hdump Hnone
           quietHeap_pairs_well_founded).
Defined.
